(** * NGMotherLine: the processing pipeline, embedded and verified

    A shallow embedding of the speech-span segmenter ([src/audio/vad.py]),
    the subtitle serializer ([src/subtitle/generator.py]) and the pipeline
    orchestrator ([src/core/pipeline.py]), followed by the audio extractor
    ([src/audio/extractor.py]), the command line ([src/cli/main.py]), the
    recognition engine ([src/asr/whisper_engine.py]) and the translator
    ([src/translation/translator.py]).

    Conventions of the embedding:
    - a Python [float] number of seconds is an exact rational ([Q]); the
      rounding of binary floating point is outside the model, and the
      statements about times compare end points or name the sums and
      differences the code evaluates, not their exact values;
    - a Python [int] is a [Z], [len(...)] is a [nat];
    - a Python [str] is a [string] of UTF-8 bytes; case mapping and white
      space follow Python on the ASCII range;
    - a call that may raise returns a [result]; the exceptions are
      instances of [Exception], the ones [except Exception] catches;
    - a [while] loop runs on fuel and returns an [outcome], whose
      [OutOfFuel] stands for "still running";
    - the models behind the collaborators (Silero, WebRTC, the [srt]
      package, FFmpeg, faster-whisper, Argos, the file system) are
      parameters; so are the translator and the stages in the modules of
      the orchestrator that do not look inside them. *)

From Stdlib Require Import QArith Qround Lqa ZArith Lia List String Ascii Bool.
From Stdlib Require Import Sorted DecimalString.
Import ListNotations.

Set Implicit Arguments.

(** ** Python runtime notions shared by the modules *)

Module Py.

(** Exceptions carry their class and their message ([str(e)]).  Every
    class below derives from [Exception]. *)
Inductive exn_class : Type :=
| TypeError
| ValueError
| ZeroDivisionError
| AttributeError
| FileNotFoundError
| RuntimeError
| OtherException (name : string).

Record exn : Type := mkExn { exn_cls : exn_class; exn_msg : string }.

Inductive result (A : Type) : Type :=
| Ok (a : A)
| Raise (e : exn).
Arguments Ok {A} a.
Arguments Raise {A} e.

Definition bind {A B : Type} (m : result A) (k : A -> result B) : result B :=
  match m with
  | Ok a => k a
  | Raise e => Raise e
  end.

(** [try: m  except Exception as e: h e] *)
Definition try_except {A : Type} (m : result A) (h : exn -> result A) : result A :=
  match m with
  | Ok a => Ok a
  | Raise e => h e
  end.

(** The three ways a computation with loops can end. *)
Inductive outcome (A : Type) : Type :=
| Done (a : A)
| Fail (e : exn)
| OutOfFuel.
Arguments Done {A} a.
Arguments Fail {A} e.
Arguments OutOfFuel {A}.

(** [min(a, b)] of Python: [b] when [b < a], else [a]. *)
Definition Qltb (x y : Q) : bool := negb (Qle_bool y x).

Definition min (a b : Q) : Q := if Qltb b a then b else a.

(** Truthiness of an [Optional[str]]: [None] and the empty string are false. *)
Definition truthy (o : option string) : bool :=
  match o with
  | Some (String _ _) => true
  | _ => false
  end.

(** [str.isspace] on one ASCII character. *)
Definition is_space (c : ascii) : bool :=
  let n := nat_of_ascii c in
  ((9 <=? n) && (n <=? 13)) || ((28 <=? n) && (n <=? 32)).

Fixpoint lstrip (s : string) : string :=
  match s with
  | EmptyString => EmptyString
  | String c s' => if is_space c then lstrip s' else s
  end.

(** Drops trailing white space: a character stays when it is not a space
    or when something that stays follows it. *)
Fixpoint rstrip (s : string) : string :=
  match s with
  | EmptyString => EmptyString
  | String c s' =>
      match rstrip s' with
      | EmptyString => if is_space c then EmptyString else String c EmptyString
      | r => String c r
      end
  end.

Definition strip (s : string) : string := rstrip (lstrip s).

(** [not text or not text.strip()] *)
Definition blank (s : string) : bool :=
  match s with
  | EmptyString => true
  | _ => match strip s with EmptyString => true | _ => false end
  end.

Definition upper_char (c : ascii) : ascii :=
  let n := nat_of_ascii c in
  if (97 <=? n) && (n <=? 122) then ascii_of_nat (n - 32) else c.

Fixpoint upper (s : string) : string :=
  match s with
  | EmptyString => EmptyString
  | String c s' => String (upper_char c) (upper s')
  end.

(** *** Binding the keyword arguments of a call

    A signature lists the parameter names after [self], in order.  A call
    that passes a keyword naming no parameter raises [TypeError], with the
    message of CPython 3.10 and later. *)
Definition signature : Type := list string.

Definition unexpected_keyword (fname kw : string) : exn :=
  mkExn TypeError (fname ++ "() got an unexpected keyword argument '" ++ kw ++ "'").

Fixpoint bind_call (fname : string) (params : signature) (kwargs : list string)
  : result unit :=
  match kwargs with
  | [] => Ok tt
  | kw :: rest =>
      if existsb (String.eqb kw) params
      then bind_call fname params rest
      else Raise (unexpected_keyword fname kw)
  end.

End Py.

Import Py.

Notation "x <- m ;; k" := (Py.bind m (fun x => k))
  (at level 61, m at next level, right associativity).

(** ** The speech-span segmenter ([src/audio/vad.py]) *)

Module VAD.

(** A span [(start, end)] in seconds. *)
Definition span : Type := (Q * Q)%type.

(** The Silero model is an external collaborator: called on the waveform
    and the sample rate, it returns the raw speech timestamps or raises.
    The conversion to a tensor and the reading of the ['start'] and ['end']
    keys are part of that call. *)
Definition SileroModel : Type := list Q -> Z -> result (list span).

(** [webrtcvad.Vad.is_speech(frame, sample_rate)]: external, may raise. *)
Definition WebRtcVad : Type := list Z -> Z -> result bool.

Record VADSegmenter : Type := mkVAD {
  method : string;
  aggressiveness : Z;
  min_speech_duration : Q;
  max_speech_duration : Q;
  sample_rate : Z;
  vad_model : option SileroModel;
  webrtc_vad : option WebRtcVad
}.

(** What the constructor finds in its environment. *)
Record Env : Type := mkEnv {
  WEBRTCVAD_AVAILABLE : bool;
  torch_hub_load : result SileroModel;
  webrtcvad_Vad : Z -> result WebRtcVad
}.

Definition set_method (self : VADSegmenter) (m : string) : VADSegmenter :=
  mkVAD m (aggressiveness self) (min_speech_duration self)
        (max_speech_duration self) (sample_rate self)
        (vad_model self) (webrtc_vad self).

Definition set_vad_model (self : VADSegmenter) (m : SileroModel) : VADSegmenter :=
  mkVAD (method self) (aggressiveness self) (min_speech_duration self)
        (max_speech_duration self) (sample_rate self)
        (Some m) (webrtc_vad self).

Definition set_webrtc_vad (self : VADSegmenter) (w : WebRtcVad) : VADSegmenter :=
  mkVAD (method self) (aggressiveness self) (min_speech_duration self)
        (max_speech_duration self) (sample_rate self)
        (vad_model self) (Some w).

Definition _init_webrtc_vad (env : Env) (self : VADSegmenter) : VADSegmenter :=
  if negb (WEBRTCVAD_AVAILABLE env) then set_method self "fixed"
  else match webrtcvad_Vad env (aggressiveness self) with
       | Ok w => set_webrtc_vad self w
       | Raise _ => set_method self "fixed"
       end.

Definition _init_vad (env : Env) (self : VADSegmenter) : result VADSegmenter :=
  if String.eqb (method self) "silero" then
    match torch_hub_load env with
    | Ok m => Ok (set_vad_model self m)
    | Raise _ => Ok (_init_webrtc_vad env (set_method self "webrtc"))
    end
  else if String.eqb (method self) "webrtc" then
    Ok (_init_webrtc_vad env self)
  else if String.eqb (method self) "fixed" then
    Ok self
  else
    Raise (mkExn ValueError ("Método VAD inválido: " ++ method self)).

(** The parameters of [VADSegmenter.__init__] after [self]. *)
Definition VADSegmenter_signature : signature :=
  ["method"; "aggressiveness"; "min_speech_duration"; "max_speech_duration";
   "sample_rate"]%string.

(** [VADSegmenter(method, aggressiveness, min_speech_duration,
    max_speech_duration, sample_rate)] *)
Definition __init__ (env : Env) (method : string) (aggressiveness : Z)
           (min_speech_duration max_speech_duration : Q) (sample_rate : Z)
  : result VADSegmenter :=
  _init_vad env (mkVAD method aggressiveness min_speech_duration
                       max_speech_duration sample_rate None None).

(** [len(audio_data) / self.sample_rate] *)
Definition seconds_of (n : nat) (sample_rate : Z) : Q :=
  inject_Z (Z.of_nat n) / inject_Z sample_rate.

Definition true_div (n : nat) (sample_rate : Z) : result Q :=
  if Z.eqb sample_rate 0
  then Raise (mkExn ZeroDivisionError "division by zero")
  else Ok (seconds_of n sample_rate).

(** The [while current_time < duration] loop of [_segment_fixed].  The
    sum [current_time + segment_length] is exact here and rounded in the
    code; the statements about the windows name the sum itself. *)
Fixpoint fixed_loop (fuel : nat) (duration segment_length current_time : Q)
         (segments : list span) : outcome (list span) :=
  match fuel with
  | O => OutOfFuel
  | S fuel' =>
      if Py.Qltb current_time duration then
        let end_time := Py.min (current_time + segment_length) duration in
        fixed_loop fuel' duration segment_length end_time
                   (segments ++ [(current_time, end_time)])
      else Done segments
  end.

Definition _segment_fixed (fuel : nat) (self : VADSegmenter) (audio_data : list Q)
  : outcome (list span) :=
  match true_div (List.length audio_data) (sample_rate self) with
  | Raise e => Fail e
  | Ok duration =>
      let segment_length := Py.min (max_speech_duration self) 10 in
      fixed_loop fuel duration segment_length 0 []
  end.

(** The [while current_start < end_time] loop of [_split_long_segment],
    with the same remark on the sum. *)
Fixpoint split_loop (fuel : nat) (max_speech_duration end_time current_start : Q)
         (segments : list span) : outcome (list span) :=
  match fuel with
  | O => OutOfFuel
  | S fuel' =>
      if Py.Qltb current_start end_time then
        let current_end := Py.min (current_start + max_speech_duration) end_time in
        split_loop fuel' max_speech_duration end_time current_end
                   (segments ++ [(current_start, current_end)])
      else Done segments
  end.

Definition _split_long_segment (fuel : nat) (self : VADSegmenter)
           (start_time end_time : Q) : outcome (list span) :=
  split_loop fuel (max_speech_duration self) end_time start_time [].

(** The [for timestamp in speech_timestamps] loop of [_segment_silero]. *)
Fixpoint silero_loop (fuel : nat) (self : VADSegmenter)
         (speech_timestamps : list span) (segments : list span)
  : outcome (list span) :=
  match speech_timestamps with
  | [] => Done segments
  | (start_time, end_time) :: rest =>
      let duration := end_time - start_time in
      if Qle_bool (min_speech_duration self) duration then
        if Py.Qltb (max_speech_duration self) duration then
          match _split_long_segment fuel self start_time end_time with
          | Done parts => silero_loop fuel self rest (segments ++ parts)
          | Fail e => Fail e
          | OutOfFuel => OutOfFuel
          end
        else silero_loop fuel self rest (segments ++ [(start_time, end_time)])
      else silero_loop fuel self rest segments
  end.

(** Calling [self.vad_model] when it is [None] raises [TypeError]. *)
Definition call_vad_model (self : VADSegmenter) (audio_data : list Q)
  : result (list span) :=
  match vad_model self with
  | None => Raise (mkExn TypeError "'NoneType' object is not callable")
  | Some model => model audio_data (sample_rate self)
  end.

Definition _segment_silero (fuel : nat) (self : VADSegmenter) (audio_data : list Q)
  : outcome (list span) :=
  match call_vad_model self audio_data with
  | Raise _ => _segment_fixed fuel self audio_data
  | Ok speech_timestamps =>
      match silero_loop fuel self speech_timestamps [] with
      | Fail _ => _segment_fixed fuel self audio_data
      | r => r
      end
  end.

(** [(audio_data * 32767).astype(np.int16)] on one amplitude: truncation
    towards zero, wrapped to 16 bits. *)
Definition to_int16 (x : Q) : Z :=
  let y := x * 32767 in
  let t := if Py.Qltb y 0 then Qceiling y else Qfloor y in
  ((t + 32768) mod 65536 - 32768)%Z.

(** [frame = audio_int16[i:i + frame_size]], zero-padded to [frame_size]. *)
Definition frame_at (audio_int16 : list Z) (i frame_size : nat) : list Z :=
  let frame := firstn frame_size (skipn i audio_int16) in
  frame ++ repeat 0%Z (frame_size - List.length frame).

(** [range(0, n, step)] for a positive [step]. *)
Definition range_step (n step : nat) : list nat :=
  map (fun k => (k * step)%nat) (seq 0 ((n + step - 1) / step)).

(** The frame loop of [_segment_webrtc]: the state is the list of segments
    and the start of the span in progress. *)
Fixpoint webrtc_loop (self : VADSegmenter) (vad : WebRtcVad) (audio_int16 : list Z)
         (frame_size : nat) (starts : list nat)
         (segments : list span) (current_start : option Q)
  : result (list span * option Q) :=
  match starts with
  | [] => Ok (segments, current_start)
  | i :: rest =>
      is_speech <- vad (frame_at audio_int16 i frame_size) (sample_rate self) ;;
      let current_time := seconds_of i (sample_rate self) in
      match is_speech, current_start with
      | true, None =>
          webrtc_loop self vad audio_int16 frame_size rest segments (Some current_time)
      | false, Some start =>
          let duration := current_time - start in
          if Qle_bool (min_speech_duration self) duration
          then webrtc_loop self vad audio_int16 frame_size rest
                           (segments ++ [(start, current_time)]) None
          else webrtc_loop self vad audio_int16 frame_size rest segments None
      | _, _ =>
          webrtc_loop self vad audio_int16 frame_size rest segments current_start
      end
  end.

(** The body of the [try] of [_segment_webrtc]. *)
Definition webrtc_body (self : VADSegmenter) (vad : WebRtcVad) (audio_data : list Q)
  : result (list span) :=
  let audio_int16 := map to_int16 audio_data in
  let frame_size := Z.quot (sample_rate self * 30) 1000 in
  if Z.eqb frame_size 0 then
    Raise (mkExn ValueError "range() arg 3 must not be zero")
  else
    let starts :=
      if (frame_size <? 0)%Z then []
      else range_step (List.length audio_int16) (Z.to_nat frame_size) in
    st <- webrtc_loop self vad audio_int16 (Z.to_nat frame_size) starts [] None ;;
    match snd st with
    | Some current_start =>
        let end_time := seconds_of (List.length audio_int16) (sample_rate self) in
        let duration := end_time - current_start in
        if Qle_bool (min_speech_duration self) duration
        then Ok (fst st ++ [(current_start, end_time)])
        else Ok (fst st)
    | None => Ok (fst st)
    end.

Definition _segment_webrtc (env : Env) (fuel : nat) (self : VADSegmenter)
           (audio_data : list Q) : outcome (list span) :=
  match WEBRTCVAD_AVAILABLE env, webrtc_vad self with
  | true, Some vad =>
      match webrtc_body self vad audio_data with
      | Ok segments => Done segments
      | Raise _ => _segment_fixed fuel self audio_data
      end
  | _, _ => _segment_fixed fuel self audio_data
  end.

Definition segment_audio (env : Env) (fuel : nat) (self : VADSegmenter)
           (audio_data : list Q) : outcome (list span) :=
  if String.eqb (method self) "silero" then _segment_silero fuel self audio_data
  else if String.eqb (method self) "webrtc" then _segment_webrtc env fuel self audio_data
  else _segment_fixed fuel self audio_data.

End VAD.

(** ** The subtitle serializer ([src/subtitle/generator.py]) *)

Module Generator.

Record SubtitleSegment : Type := mkSubtitleSegment {
  index : Z;
  start : Q;
  end_ : Q;
  text : string;
  translation : option string
}.

(** The fields of the dataclass, which are the parameters of its
    constructor. *)
Definition SubtitleSegment_signature : signature :=
  ["index"; "start"; "end"; "text"; "translation"]%string.

Definition set_start (segment : SubtitleSegment) (v : Q) : SubtitleSegment :=
  mkSubtitleSegment (index segment) v (end_ segment) (text segment)
                    (translation segment).

Definition set_end (segment : SubtitleSegment) (v : Q) : SubtitleSegment :=
  mkSubtitleSegment (index segment) (start segment) v (text segment)
                    (translation segment).

Definition nl : string := String "010"%char EmptyString.

(** *** Formatting numbers *)

Definition zfill (width : nat) (s : string) : string :=
  String.append
    (string_of_list_ascii (repeat "0"%char (width - String.length s)%nat)) s.

(** [f"{z:0Wd}"]: sign first, then zeros up to the width. *)
Definition format_d (width : nat) (z : Z) : string :=
  if (z <? 0)%Z
  then String.append "-" (zfill (width - 1)%nat (NilZero.string_of_uint (N.to_uint (Z.to_N (Z.abs z)))))
  else zfill width (NilZero.string_of_uint (N.to_uint (Z.to_N z))).

(** Rounding to the nearest integer, ties to even. *)
Definition round_half_even (x : Q) : Z :=
  let f := Qfloor x in
  let r := x - inject_Z f in
  if Py.Qltb r (1 # 2) then f
  else if Py.Qltb (1 # 2) r then (f + 1)%Z
  else if Z.even f then f else (f + 1)%Z.

(** [f"{x:0W.Df}"]: [D] decimals, zero-padded to [W] characters. *)
Definition format_f (width decimals : nat) (x : Q) : string :=
  let scale := (10 ^ Z.of_nat decimals)%Z in
  let n := round_half_even (x * inject_Z scale) in
  let a := Z.abs n in
  let digits :=
    String.append (NilZero.string_of_uint (N.to_uint (Z.to_N (a / scale)%Z)))
      (String.append "." (zfill decimals (NilZero.string_of_uint (N.to_uint (Z.to_N (a mod scale)%Z))))) in
  if (n <? 0)%Z
  then String.append "-" (zfill (width - 1)%nat digits)
  else zfill width digits.

(** [x // m] and [x % m] of Python for a positive [m], computed exactly.
    For a float [x] from 0 up to [2^53] Python's results are these; for
    a negative [x] Python rounds [x % m], which may then reach [m]. *)
Definition floordiv (x m : Q) : Z := Qfloor (x / m).
Definition pymod (x m : Q) : Q := x - m * inject_Z (floordiv x m).

Definition _format_vtt_time (seconds : Q) : string :=
  let hours := floordiv seconds 3600 in
  let minutes := floordiv (pymod seconds 3600) 60 in
  let secs := pymod seconds 60 in
  String.append (format_d 2 hours)
    (String.append ":" (String.append (format_d 2 minutes)
      (String.append ":" (format_f 6 3 secs)))).

Definition _format_ass_time (seconds : Q) : string :=
  let hours := floordiv seconds 3600 in
  let minutes := floordiv (pymod seconds 3600) 60 in
  let secs := pymod seconds 60 in
  String.append (format_d 1 hours)
    (String.append ":" (String.append (format_d 2 minutes)
      (String.append ":" (format_f 5 2 secs)))).

(** *** The renderers

    Each [generate_*] below is the content the method writes to
    [output_path]. *)

(** [segment.translation if use_translation and segment.translation
    else segment.text] *)
Definition chosen_text (use_translation : bool) (segment : SubtitleSegment) : string :=
  match translation segment with
  | Some t => if use_translation && Py.truthy (Some t) then t else text segment
  | None => text segment
  end.

(** [srt.Subtitle(index, start, end, content)]; the [timedelta] values
    are kept as seconds. *)
Record Subtitle : Type := mkSubtitle {
  sub_index : Z;
  sub_start : Q;
  sub_end : Q;
  content : string
}.

Fixpoint srt_subtitles (segments : list SubtitleSegment) (use_translation : bool)
  : list Subtitle :=
  match segments with
  | [] => []
  | segment :: rest =>
      let text := chosen_text use_translation segment in
      if Py.blank text then srt_subtitles rest use_translation
      else mkSubtitle (index segment) (start segment) (end_ segment) (Py.strip text)
             :: srt_subtitles rest use_translation
  end.

(** [srt.compose] belongs to the external [srt] package and is a parameter. *)
Definition generate_srt (srt_compose : list Subtitle -> string)
           (segments : list SubtitleSegment) (use_translation : bool) : string :=
  srt_compose (srt_subtitles segments use_translation).

Fixpoint vtt_body (segments : list SubtitleSegment) (use_translation : bool)
         (vtt_content : string) : string :=
  match segments with
  | [] => vtt_content
  | segment :: rest =>
      let text := chosen_text use_translation segment in
      if Py.blank text then vtt_body rest use_translation vtt_content
      else
        let start_time := _format_vtt_time (start segment) in
        let end_time := _format_vtt_time (end_ segment) in
        vtt_body rest use_translation
          (String.append vtt_content
            (String.append start_time (String.append " --> " (String.append end_time
              (String.append nl (String.append (Py.strip text) (String.append nl nl)))))))
  end.

Definition generate_vtt (segments : list SubtitleSegment) (use_translation : bool)
  : string :=
  vtt_body segments use_translation (String.append "WEBVTT" (String.append nl nl)).

Definition ass_header : string :=
"[Script Info]
Title: MotherLine Subtitles
ScriptType: v4.00+
WrapStyle: 0
ScaledBorderAndShadow: yes
YCbCr Matrix: None

[V4+ Styles]
Format: Name, Fontname, Fontsize, PrimaryColour, SecondaryColour, OutlineColour, BackColour, Bold, Italic, Underline, StrikeOut, ScaleX, ScaleY, Spacing, Angle, BorderStyle, Outline, Shadow, Alignment, MarginL, MarginR, MarginV, Encoding
Style: Default,Arial,20,&H00FFFFFF,&H000000FF,&H00000000,&H80000000,0,0,0,0,100,100,0,0,1,2,2,2,10,10,10,1

[Events]
Format: Layer, Start, End, Style, Name, MarginL, MarginR, MarginV, Effect, Text
".

Fixpoint ass_body (segments : list SubtitleSegment) (use_translation : bool)
         (ass_content : string) : string :=
  match segments with
  | [] => ass_content
  | segment :: rest =>
      let text := chosen_text use_translation segment in
      if Py.blank text then ass_body rest use_translation ass_content
      else
        let start_time := _format_ass_time (start segment) in
        let end_time := _format_ass_time (end_ segment) in
        ass_body rest use_translation
          (String.append ass_content
            (String.append "Dialogue: 0," (String.append start_time
              (String.append "," (String.append end_time
                (String.append ",Default,,0,0,0,," (String.append (Py.strip text) nl)))))))
  end.

Definition generate_ass (segments : list SubtitleSegment) (use_translation : bool)
  : string :=
  ass_body segments use_translation ass_header.

Inductive format : Type := SRT | VTT | ASS.

(** The renderer of a format as the pipeline calls it, with the default
    [use_translation=False]. *)
Definition render (srt_compose : list Subtitle -> string)
           (segments : list SubtitleSegment) (f : format) : string :=
  match f with
  | SRT => generate_srt srt_compose segments false
  | VTT => generate_vtt segments false
  | ASS => generate_ass segments false
  end.

(** *** Validation *)

Definition max_duration : Q := 10.

(** One turn of the loop of [validate_segments]: the segment as it is
    left, and whether it is appended to the validated list.  The sums
    [start + 1] and [start + max_duration] are exact here and rounded in
    the code. *)
Definition validate_segment (segment : SubtitleSegment) : SubtitleSegment * bool :=
  let s1 := if Py.Qltb (start segment) 0 then set_start segment 0 else segment in
  let s2 := if Qle_bool (end_ s1) (start s1) then set_end s1 (start s1 + 1) else s1 in
  if Py.blank (text s2) then (s2, false)
  else
    let s3 := if Py.Qltb max_duration (end_ s2 - start s2)
              then set_end s2 (start s2 + max_duration) else s2 in
    (s3, true).

(** [validate_segments] on a list of distinct segment objects. *)
Fixpoint validate_segments (segments : list SubtitleSegment) : list SubtitleSegment :=
  match segments with
  | [] => []
  | segment :: rest =>
      let (s, keep) := validate_segment segment in
      if keep then s :: validate_segments rest else validate_segments rest
  end.

(** The same loop on a heap of segment objects, which it mutates in place:
    [segments] is a list of references, and one object may occur in it
    more than once.  A reference outside the heap, which Python cannot
    form, is passed over. *)
Definition heap : Type := list SubtitleSegment.

Fixpoint store (h : heap) (r : nat) (v : SubtitleSegment) : heap :=
  match h, r with
  | [], _ => []
  | _ :: h', O => v :: h'
  | x :: h', S r' => x :: store h' r' v
  end.

Definition deref (h : heap) (refs : list nat) : list SubtitleSegment :=
  flat_map (fun r => match nth_error h r with Some v => [v] | None => [] end) refs.

Fixpoint validate_segments_heap (h : heap) (segments : list nat)
         (validated_segments : list nat) : heap * list nat :=
  match segments with
  | [] => (h, validated_segments)
  | r :: rest =>
      match nth_error h r with
      | None => validate_segments_heap h rest validated_segments
      | Some segment =>
          let (s, keep) := validate_segment segment in
          validate_segments_heap (store h r s) rest
            (if keep then validated_segments ++ [r] else validated_segments)
      end
  end.

End Generator.

(** ** The pipeline orchestrator ([src/core/pipeline.py]) *)

Module Pipeline.

Record PipelineConfig : Type := mkConfig {
  mode : string;
  source_language : string;
  target_language : option string;
  output_formats : list string;
  embed_subtitles : bool;
  bilingual_subtitles : bool;
  multilingual_detection : bool;
  preserve_original_languages : bool;
  add_language_labels : bool;
  vad_method : string;
  device : string;
  cpu_threads : option Z;
  cache_dir : option string
}.

(** [PipelineConfig.__post_init__]; [default_cache] is
    [str(Path.home() / ".cache" / "motherline")]. *)
Definition __post_init__ (default_cache : string) (self : PipelineConfig)
  : PipelineConfig :=
  let cache_dir' :=
    match cache_dir self with None => Some default_cache | Some d => Some d end in
  let source_language' :=
    if multilingual_detection self
    then if String.eqb (source_language self) "auto" then "multilingual"%string
         else source_language self
    else source_language self in
  let preserve' :=
    if multilingual_detection self
    then if negb (Py.truthy (target_language self)) then true
         else preserve_original_languages self
    else preserve_original_languages self in
  mkConfig (mode self) source_language' (target_language self)
           (output_formats self) (embed_subtitles self) (bilingual_subtitles self)
           (multilingual_detection self) preserve' (add_language_labels self)
           (vad_method self) (device self) (cpu_threads self) cache_dir'.

(** [PipelineConfig(...)]: the dataclass constructor stores the fields and
    runs [__post_init__]. *)
Definition new_PipelineConfig (default_cache : string) (raw : PipelineConfig)
  : PipelineConfig := __post_init__ default_cache raw.

(** [TranscriptionSegment] of the ASR engine, with the [translated_text]
    attribute the pipeline attaches to it ([None] while it is absent). *)
Record TranscriptionSegment : Type := mkSegment {
  id : Z;
  start : Q;
  end_ : Q;
  text : string;
  confidence : Q;
  language : string;
  language_confidence : Q;
  translated_text : option string
}.

Record TranscriptionResult : Type := mkTranscription {
  segments : list TranscriptionSegment;
  detected_language : string;
  result_language_confidence : Q;
  result_processing_time : Q;
  model_used : string;
  multilingual_detected : bool;
  languages_found : list string
}.

(** [MotherLineTranslator.translate_text(text, source_lang, target_lang)]:
    the translated text of its result, or the exception it raises. *)
Definition Translator : Type := string -> string -> option string -> result string.

Definition set_translated_text (segment : TranscriptionSegment) (t : string)
  : TranscriptionSegment :=
  mkSegment (id segment) (start segment) (end_ segment) (text segment)
            (confidence segment) (language segment) (language_confidence segment)
            (Some t).

(** [segment.text = t; segment.language = lang].  The stage runs with a
    target language set; were it [None], the language is left as it is. *)
Definition set_text_language (segment : TranscriptionSegment) (t : string)
           (lang : option string) : TranscriptionSegment :=
  mkSegment (id segment) (start segment) (end_ segment) t
            (confidence segment)
            (match lang with Some l => l | None => language segment end)
            (language_confidence segment) (translated_text segment).

Definition option_string_eqb (a b : option string) : bool :=
  match a, b with
  | Some x, Some y => String.eqb x y
  | None, None => true
  | _, _ => false
  end.

(** One turn of the loop of [_translate_segments]. *)
Definition translate_segment (config : PipelineConfig) (translator : Translator)
           (detected : string) (segment : TranscriptionSegment)
  : result TranscriptionSegment :=
  let source_lang :=
    if multilingual_detection config then language segment else detected in
  if negb (option_string_eqb (Some source_lang) (target_language config)) then
    try_except
      (translation <- translator (text segment) source_lang (target_language config) ;;
       if preserve_original_languages config
       then Ok (set_translated_text segment translation)
       else Ok (set_text_language segment translation (target_language config)))
      (fun e =>
         if preserve_original_languages config
         then Ok (set_translated_text segment (text segment))
         else Ok segment)
  else if preserve_original_languages config then
    Ok (set_translated_text segment (text segment))
  else Ok segment.

Fixpoint translate_loop (config : PipelineConfig) (translator : Translator)
         (detected : string) (segs : list TranscriptionSegment)
  : result (list TranscriptionSegment) :=
  match segs with
  | [] => Ok []
  | segment :: rest =>
      segment' <- translate_segment config translator detected segment ;;
      rest' <- translate_loop config translator detected rest ;;
      Ok (segment' :: rest')
  end.

Definition set_segments (r : TranscriptionResult) (segs : list TranscriptionSegment)
  : TranscriptionResult :=
  mkTranscription segs (detected_language r) (result_language_confidence r)
                  (result_processing_time r) (model_used r)
                  (multilingual_detected r) (languages_found r).

Definition _translate_segments (config : PipelineConfig) (translator : option Translator)
           (transcription_result : TranscriptionResult) : result TranscriptionResult :=
  match translator with
  | None => Ok transcription_result
  | Some tr =>
      segs <- translate_loop config tr (detected_language transcription_result)
                             (segments transcription_result) ;;
      Ok (set_segments transcription_result segs)
  end.

(** *** Final text selection in [_create_subtitle_segments] *)

(** [f"[{lang.upper()}] "] *)
Definition language_label (lang : string) : string :=
  String.append "[" (String.append (Py.upper lang) "] ").

(** [original_text] after the labelling step. *)
Definition labelled_original (config : PipelineConfig) (segment : TranscriptionSegment)
  : string :=
  if add_language_labels config && multilingual_detection config
  then String.append (language_label (language segment)) (text segment)
  else text segment.

(** [translated_text] after the labelling step. *)
Definition labelled_translation (config : PipelineConfig) (segment : TranscriptionSegment)
  : option string :=
  if add_language_labels config && multilingual_detection config then
    match translated_text segment, target_language config with
    | Some t, Some target =>
        if Py.truthy (Some t) && Py.truthy (Some target)
        then Some (String.append (language_label target) t)
        else Some t
    | other, _ => other
    end
  else translated_text segment.

(** The value of [final_text] when the segment is appended. *)
Definition final_text (config : PipelineConfig) (segment : TranscriptionSegment)
  : string :=
  let original_text := labelled_original config segment in
  let translated := labelled_translation config segment in
  match translated with
  | Some t =>
      if bilingual_subtitles config && Py.truthy translated then
        String.append original_text (String.append Generator.nl t)
      else if preserve_original_languages config && Py.truthy translated then
        if option_string_eqb (Some (language segment)) (target_language config)
        then original_text
        else t
      else original_text
  | None => original_text
  end.

(** The keywords of the call [SubtitleSegment(id=..., start=..., end=...,
    text=..., translated_text=...)]. *)
Definition SubtitleSegment_call_keywords : list string :=
  ["id"; "start"; "end"; "text"; "translated_text"]%string.

(** The loop of [_create_subtitle_segments].  The constructor call is
    bound against the dataclass of the serializer; the record after the
    binding is what the call would carry. *)
Fixpoint _create_subtitle_segments (config : PipelineConfig)
         (segs : list TranscriptionSegment)
  : result (list Generator.SubtitleSegment) :=
  match segs with
  | [] => Ok []
  | segment :: rest =>
      let text' := final_text config segment in
      _ <- Py.bind_call "SubtitleSegment.__init__" Generator.SubtitleSegment_signature
                        SubtitleSegment_call_keywords ;;
      rest' <- _create_subtitle_segments config rest ;;
      Ok (Generator.mkSubtitleSegment (id segment) (start segment) (end_ segment)
                                      text' (labelled_translation config segment)
            :: rest')
  end.

(** *** Construction of the pipeline *)

(** The constructors of the collaborators, each of which may raise. *)
Record Collaborators : Type := mkCollaborators {
  vad_env : VAD.Env;
  new_AudioExtractor : result unit;
  new_WhisperEngine : string -> string -> option Z -> result unit;
  new_MotherLineTranslator : result Translator
}.

Record MotherLinePipeline : Type := mkPipeline {
  config : PipelineConfig;
  vad_segmenter : VAD.VADSegmenter;
  translator : option Translator
}.

(** The keywords of the call [VADSegmenter(method=..., device=...)]. *)
Definition VADSegmenter_call_keywords : list string := ["method"; "device"]%string.

Definition _initialize_components (env : Collaborators) (cfg : PipelineConfig)
  : result MotherLinePipeline :=
  try_except
    (_ <- new_AudioExtractor env ;;
     _ <- Py.bind_call "VADSegmenter.__init__" VAD.VADSegmenter_signature
                       VADSegmenter_call_keywords ;;
     vad <- VAD.__init__ (vad_env env) (vad_method cfg) 1 (1 # 2) 30 16000 ;;
     _ <- new_WhisperEngine env (mode cfg) (device cfg) (cpu_threads cfg) ;;
     tr <- (if Py.truthy (target_language cfg)
            then (t <- new_MotherLineTranslator env ;; Ok (Some t))
            else Ok None) ;;
     Ok (mkPipeline cfg vad tr))
    (fun e =>
       Raise (mkExn RuntimeError
                    (String.append "Falha na inicialização do pipeline: " (exn_msg e)))).

(** [MotherLinePipeline(config)] *)
Definition new_MotherLinePipeline (env : Collaborators) (cfg : PipelineConfig)
  : result MotherLinePipeline :=
  _initialize_components env cfg.

(** *** [process_file] *)

Inductive Any : Type :=
| AnyStats (stats : list (string * Q))
| AnyInfo (info : list (string * string)).

Record ProcessingResult : Type := mkResult {
  success : bool;
  output_files : list string;
  processing_time : Q;
  audio_duration : Q;
  segments_count : nat;
  result_detected_language : option string;
  result_languages_found : list string;
  result_multilingual_detected : bool;
  error_message : option string;
  metadata : list (string * Any)
}.

(** [ProcessingResult(success=False, error_message=..., processing_time=...)]:
    the other fields take the defaults of the dataclass. *)
Definition failure_result (message : string) (elapsed : Q) : ProcessingResult :=
  mkResult false [] elapsed 0 0 None [] false (Some message) [].

(** What [process_file] meets outside itself: the file system, the clock,
    and the stage sequence [_execute_pipeline], which returns its result or
    lets the exception of a stage escape. *)
Record Run : Type := mkRun {
  path_exists : string -> bool;
  parent_of : string -> string;
  mkdir : string -> result unit;
  _execute_pipeline : string -> string -> result ProcessingResult;
  processing_stats : list (string * Q);
  elapsed : Q
}.

Definition finish (run : Run) (r : ProcessingResult) : ProcessingResult :=
  mkResult (success r) (output_files r) (elapsed run) (audio_duration r)
           (segments_count r) (result_detected_language r)
           (result_languages_found r) (result_multilingual_detected r)
           (error_message r)
           (("processing_stats"%string, AnyStats (processing_stats run))
              :: filter (fun kv => negb (String.eqb (fst kv) "processing_stats"))
                        (metadata r)).

(** The [try] block of [process_file]. *)
Definition process_file_try (run : Run) (input_file : string)
           (output_dir : option string) : result ProcessingResult :=
  _ <- (if negb (path_exists run input_file)
        then Raise (mkExn FileNotFoundError
                          (String.append "Arquivo não encontrado: " input_file))
        else Ok tt) ;;
  let output_dir' :=
    match output_dir with None => parent_of run input_file | Some d => d end in
  _ <- mkdir run output_dir' ;;
  r <- _execute_pipeline run input_file output_dir' ;;
  Ok (finish run r).

Definition process_file (run : Run) (input_file : string) (output_dir : option string)
  : result ProcessingResult :=
  try_except (process_file_try run input_file output_dir)
             (fun e => Ok (failure_result (exn_msg e) (elapsed run))).

End Pipeline.

(** ** Properties of span lists *)

Module Spans.

Import VAD.

(** A span lies in the audio of duration [D]. *)
Definition span_ok (D : Q) (s : span) : Prop :=
  0 <= fst s /\ fst s < snd s /\ snd s <= D.

(** [a] ends before [b] starts. *)
Definition before (a b : span) : Prop := snd a <= fst b.

(** All spans lie in [[0, D]] and each one ends before every later one
    starts: they are pairwise non-overlapping. *)
Definition spans_ok (D : Q) (l : list span) : Prop :=
  Forall (span_ok D) l /\ StronglySorted before l.


(** Every span of [l] ends at [c] or earlier. *)
Definition upto (c : Q) (l : list span) : Prop :=
  Forall (fun s : span => snd s <= c) l.



(** The duration of the audio in seconds. *)
Definition duration_of (self : VADSegmenter) (audio_data : list Q) : Q :=
  seconds_of (List.length audio_data) (sample_rate self).



End Spans.

(** ** Concrete segmenters and recordings *)

Module Examples.

Import VAD.

(** An environment without Silero and without WebRTC. *)
Definition bare_env : Env :=
  mkEnv false
        (Raise (mkExn RuntimeError "model not found"))
        (fun _ => Raise (mkExn RuntimeError "webrtcvad not installed")).

(** [n] samples of silence. *)
Definition silence (n : Z) : list Q := repeat 0 (Z.to_nat n).




(** [VADSegmenter(method='fixed', max_speech_duration=m, sample_rate=sr)]
    once constructed. *)
Definition fixed_with (m : Q) (sr : Z) : VADSegmenter :=
  mkVAD "fixed" 1 (1 # 2) m sr None None.

(** A detector that hears speech in the frames that do not start with a
    zero sample. *)
Definition loud_frames : WebRtcVad :=
  fun frame _ => Ok (negb (Z.eqb (hd 0%Z frame) 0)).

(** [VADSegmenter(method='webrtc', min_speech_duration=0.05,
    sample_rate=1000)] once constructed: frames of 30 samples. *)
Definition webrtc_segmenter : VADSegmenter :=
  mkVAD "webrtc" 1 (5 # 100) 30 1000 None (Some loud_frames).

Definition webrtc_env : Env :=
  mkEnv true (Raise (mkExn RuntimeError "model not found")) (fun _ => Ok loud_frames).

(** 60 samples of silence, 120 samples at full scale, 120 of silence. *)
Definition burst : list Q := repeat 0 60 ++ repeat 1 120 ++ repeat 0 120.

End Examples.

(** ** Properties of subtitle segments *)

Module Validity.

Import Generator.

(** The timestamps validation leaves alone: a start that is not negative,
    an end after the start, and at most [max_duration] between them. *)
Definition timing_ok (segment : SubtitleSegment) : Prop :=
  0 <= start segment /\ start segment < end_ segment
  /\ end_ segment - start segment <= max_duration.

(** A segment on which every test of the validation loop is negative. *)
Definition settled (segment : SubtitleSegment) : Prop :=
  Py.Qltb (start segment) 0 = false
  /\ Qle_bool (end_ segment) (start segment) = false
  /\ Py.Qltb max_duration (end_ segment - start segment) = false.

Definition nonblank (segment : SubtitleSegment) : bool :=
  negb (Py.blank (text segment)).

(** The object at [r] passes the validation loop unchanged. *)
Definition fixed_at (h : heap) (r : nat) : Prop :=
  forall segment, nth_error h r = Some segment ->
                  validate_segment segment = (segment, nonblank segment).

(** The object at [r] exists and the validation loop keeps it. *)
Definition kept (h : heap) (r : nat) : bool :=
  match nth_error h r with
  | Some segment => nonblank segment
  | None => false
  end.

(** A segment whose end precedes its start, as an upstream error leaves it. *)
Definition backwards : SubtitleSegment := mkSubtitleSegment 1 5 3 "hi" None.

Definition well_timed : SubtitleSegment := mkSubtitleSegment 1 1 3 "hi" None.

End Validity.

(** ** The final-text rules as the specification words them *)

Module Reconciler.

Import Pipeline.

(** [add_language_labels] and multilingual mode. *)
Definition labels_on (config : PipelineConfig) : Prop :=
  add_language_labels config = true /\ multilingual_detection config = true.

(** A translated text exists: the attribute is there and is not empty. *)
Definition translation_exists (segment : TranscriptionSegment) : Prop :=
  Py.truthy (translated_text segment) = true.

(** The language of the segment equals the target language. *)
Definition in_target_language (config : PipelineConfig)
           (segment : TranscriptionSegment) : Prop :=
  target_language config = Some (language segment).

(** Step 1 for the original text: prefixed with its upper-case label when
    labels are on. *)
Inductive spec_original_text (config : PipelineConfig)
          (segment : TranscriptionSegment) : string -> Prop :=
| original_labelled :
    labels_on config ->
    spec_original_text config segment
      (String.append "[" (String.append (Py.upper (language segment))
         (String.append "] " (text segment))))
| original_plain :
    ~ labels_on config ->
    spec_original_text config segment (text segment).

(** Step 1 for the translated text: prefixed with the label of the target
    language when labels are on and a target language is set. *)
Inductive spec_translated_text (config : PipelineConfig)
          (segment : TranscriptionSegment) : string -> Prop :=
| translated_labelled (t target : string) :
    translated_text segment = Some t ->
    labels_on config ->
    target_language config = Some target -> Py.truthy (Some target) = true ->
    spec_translated_text config segment
      (String.append "[" (String.append (Py.upper target) (String.append "] " t)))
| translated_plain (t : string) :
    translated_text segment = Some t ->
    ~ (labels_on config /\ Py.truthy (target_language config) = true) ->
    spec_translated_text config segment t.

(** Steps 2 to 4, in their order of priority. *)
Inductive spec_final_text (config : PipelineConfig)
          (segment : TranscriptionSegment) : string -> Prop :=
| final_bilingual (o t : string) :
    bilingual_subtitles config = true -> translation_exists segment ->
    spec_original_text config segment o ->
    spec_translated_text config segment t ->
    spec_final_text config segment
      (String.append o (String.append Generator.nl t))
| final_preserve_original (o : string) :
    ~ (bilingual_subtitles config = true /\ translation_exists segment) ->
    preserve_original_languages config = true -> translation_exists segment ->
    in_target_language config segment ->
    spec_original_text config segment o ->
    spec_final_text config segment o
| final_preserve_translated (t : string) :
    ~ (bilingual_subtitles config = true /\ translation_exists segment) ->
    preserve_original_languages config = true -> translation_exists segment ->
    ~ in_target_language config segment ->
    spec_translated_text config segment t ->
    spec_final_text config segment t
| final_plain (o : string) :
    ~ (bilingual_subtitles config = true /\ translation_exists segment) ->
    ~ (preserve_original_languages config = true /\ translation_exists segment) ->
    spec_original_text config segment o ->
    spec_final_text config segment o.

(** The segment "hello", in English, with the translation [t] attached. *)
Definition hello (t : option string) : TranscriptionSegment :=
  mkSegment 1 0 1 "hello" 0 "en" 1 t.

(** A configuration with a target language and the three display flags. *)
Definition config_with (target : option string)
           (bilingual multilingual preserve labels : bool) : PipelineConfig :=
  mkConfig "fast" "auto" target ["srt"%string] false bilingual multilingual
           preserve labels "silero" "auto" None None.

(** A translator that always fails. *)
Definition failing_translator : Translator :=
  fun _ _ _ => Raise (mkExn RuntimeError "translation failed").

End Reconciler.

(** ** The segmenter: audio slices and duration bounds *)

Module AudioSegments.

Import VAD.

(** [int(x)] of a float: truncation towards zero. *)
Definition int_of (x : Q) : Z :=
  if Py.Qltb x 0 then Qceiling x else Qfloor x.

(** A slice bound [i] of a sequence of length [len]: a negative bound
    counts from the end, and every bound is clamped to [[0, len]]. *)
Definition slice_bound (len : nat) (i : Z) : nat :=
  if (i <? 0)%Z then Z.to_nat (Z.max 0 (Z.of_nat len + i))
  else Nat.min len (Z.to_nat i).

(** [l[i:j]] *)
Definition slice (A : Type) (l : list A) (i j : Z) : list A :=
  let a := slice_bound (List.length l) i in
  let b := slice_bound (List.length l) j in
  firstn (b - a) (skipn a l).




(** The length of a span. *)
Definition span_length (s : span) : Q := snd s - fst s.

(** The segmenter is consistent: a Silero segmenter holds its model, and a
    WebRTC segmenter holds its detector and lives where the package is. *)
Definition consistent (env : Env) (self : VADSegmenter) : Prop :=
  (method self = "silero"%string \/ method self = "webrtc"%string
   \/ method self = "fixed"%string)
  /\ (method self = "silero"%string -> vad_model self <> None)
  /\ (method self = "webrtc"%string ->
      webrtc_vad self <> None /\ WEBRTCVAD_AVAILABLE env = true).

(** A detector for which every frame is speech, and one for which none is. *)
Definition always_speech : WebRtcVad := fun _ _ => Ok true.
Definition never_speech : WebRtcVad := fun _ _ => Ok false.

(** [VADSegmenter(method='webrtc', ...)] once constructed with detector
    [vad]. *)
Definition webrtc_with (vad : WebRtcVad) (min_d max_d : Q) (sr : Z) : VADSegmenter :=
  mkVAD "webrtc" 1 min_d max_d sr None (Some vad).

End AudioSegments.

(** ** Windows as the loops compute them

    The statements about window bounds are phrased with the sums and
    differences the code itself evaluates ([current_time + segment_length],
    [end_time - start_time]), so that they read the same whether the sum is
    exact, as in this embedding, or rounded, as in binary floating point. *)

Module Windows.

Import VAD Spans.


(** The span passed the test [end - start <= m] of the Silero loop, or
    ends no later than the sum [start + m] of a window. *)
Definition bounded_by (m : Q) (s : span) : Prop :=
  snd s - fst s <= m \/ snd s <= fst s + m.



End Windows.

(** ** The serializer: the other methods of [SubtitleGenerator] *)

Module GeneratorMore.

Import Generator.

(** An element of [transcription_segments] as [create_subtitle_segments]
    reads it: the attributes it may have, and its [str(...)]. *)
Record Transcribed : Type := mkTranscribed {
  seg_text : option string;
  seg_start : option Q;
  seg_end : option Q;
  seg_str : string
}.

(** One turn of the loop of [create_subtitle_segments];
    [translation_results] holds the [translated_text] of each result. *)
Definition create_one (i : nat) (segment : Transcribed)
           (translation_results : option (list string)) : SubtitleSegment :=
  let text := match seg_text segment with Some t => t | None => seg_str segment end in
  let translation :=
    match translation_results with
    | Some (r :: results) => nth_error (r :: results) i
    | _ => None
    end in
  let start_time := match seg_start segment with Some s => s | None => 0 end in
  let end_time := match seg_end segment with Some e => e | None => start_time + 3 end in
  mkSubtitleSegment (Z.of_nat i + 1) start_time end_time (Py.strip text) translation.

Fixpoint create_from (i : nat) (transcription_segments : list Transcribed)
         (translation_results : option (list string)) : list SubtitleSegment :=
  match transcription_segments with
  | [] => []
  | segment :: rest =>
      create_one i segment translation_results
        :: create_from (S i) rest translation_results
  end.

Definition create_subtitle_segments (transcription_segments : list Transcribed)
           (translation_results : option (list string)) : list SubtitleSegment :=
  create_from 0 transcription_segments translation_results.

(** [segment.translation and segment.translation.strip()] *)
Definition has_translation_line (segment : SubtitleSegment) : bool :=
  match translation segment with
  | Some t => Py.truthy (Some t) && negb (Py.blank t)
  | None => false
  end.

(** The subtitles [generate_bilingual_srt] hands to [srt.compose]. *)
Fixpoint bilingual_subtitles_of (segments : list SubtitleSegment) : list Subtitle :=
  match segments with
  | [] => []
  | segment :: rest =>
      if Py.blank (text segment) then bilingual_subtitles_of rest
      else
        let text_lines :=
          Py.strip (text segment)
            :: (if has_translation_line segment
                then match translation segment with
                     | Some t => [Py.strip t]
                     | None => []
                     end
                else []) in
        mkSubtitle (index segment) (start segment) (end_ segment)
                   (String.concat nl text_lines)
          :: bilingual_subtitles_of rest
  end.

Definition generate_bilingual_srt (srt_compose : list Subtitle -> string)
           (segments : list SubtitleSegment) : string :=
  srt_compose (bilingual_subtitles_of segments).

(** A renderer called with an explicit [use_translation]. *)
Definition render_as (srt_compose : list Subtitle -> string)
           (segments : list SubtitleSegment) (f : format) (use_translation : bool)
  : string :=
  match f with
  | SRT => generate_srt srt_compose segments use_translation
  | VTT => generate_vtt segments use_translation
  | ASS => generate_ass segments use_translation
  end.

(** The segment is written: its chosen text is not blank. *)
Definition written (use_translation : bool) (segment : SubtitleSegment) : bool :=
  negb (Py.blank (chosen_text use_translation segment)).

(** The cue of one segment in a VTT file. *)
Definition vtt_cue (use_translation : bool) (segment : SubtitleSegment) : string :=
  String.append (_format_vtt_time (start segment))
    (String.append " --> " (String.append (_format_vtt_time (end_ segment))
      (String.append nl
        (String.append (Py.strip (chosen_text use_translation segment))
           (String.append nl nl))))).

(** The event line of one segment in an ASS file. *)
Definition ass_event (use_translation : bool) (segment : SubtitleSegment) : string :=
  String.append "Dialogue: 0,"
    (String.append (_format_ass_time (start segment))
      (String.append "," (String.append (_format_ass_time (end_ segment))
        (String.append ",Default,,0,0,0,,"
          (String.append (Py.strip (chosen_text use_translation segment)) nl))))).

(** The subtitle of one segment that [generate_srt] hands to
    [srt.compose]. *)
Definition srt_cue (use_translation : bool) (segment : SubtitleSegment) : Subtitle :=
  mkSubtitle (index segment) (start segment) (end_ segment)
             (Py.strip (chosen_text use_translation segment)).

(** No segment has a blank text together with a chosen text that is not
    blank (so validation drops nothing a renderer would write). *)
Definition text_decides (use_translation : bool) (segment : SubtitleSegment) : Prop :=
  Py.blank (text segment) = true ->
  Py.blank (chosen_text use_translation segment) = true.

(** The strings of a list, one after the other. *)
Fixpoint concat_all (l : list string) : string :=
  match l with
  | [] => EmptyString
  | s :: rest => String.append s (concat_all rest)
  end.

(** What [create_subtitle_segments] makes of the [k]-th transcription
    segment, field by field. *)
Definition subtitle_of (k : nat) (segment : Transcribed)
           (translation_results : option (list string)) : SubtitleSegment :=
  mkSubtitleSegment
    (Z.of_nat k + 1)
    (match seg_start segment with Some s => s | None => 0 end)
    (match seg_end segment with
     | Some e => e
     | None => (match seg_start segment with Some s => s | None => 0 end) + 3
     end)
    (Py.strip (match seg_text segment with
               | Some t => t
               | None => seg_str segment
               end))
    (match translation_results with
     | Some results => nth_error results k
     | None => None
     end).

(** What validation makes of a segment it keeps, written with the tests
    and sums of the code: the start is raised to 0; an end that is not
    after the start becomes [start + 1]; an end with
    [end - start > max_duration] becomes [start + max_duration]. *)
Definition repair (segment : SubtitleSegment) : SubtitleSegment :=
  let start' := if Py.Qltb (start segment) 0 then 0 else start segment in
  let end1 := if Qle_bool (end_ segment) start' then start' + 1 else end_ segment in
  let end2 := if Py.Qltb max_duration (end1 - start')
              then start' + max_duration else end1 in
  mkSubtitleSegment (index segment) start' end2 (text segment)
                    (translation segment).

(** What holds of every segment validation returns, in the terms of its
    own tests. *)
Definition repaired (segment : SubtitleSegment) : Prop :=
  0 <= start segment
  /\ (start segment < end_ segment
      \/ end_ segment == start segment + 1
      \/ end_ segment == start segment + max_duration)
  /\ (end_ segment - start segment <= max_duration
      \/ end_ segment == start segment + max_duration).

(** The cue of a segment in the plain SRT, and in the bilingual SRT. *)
Definition plain_cue (segment : SubtitleSegment) : Subtitle :=
  mkSubtitle (index segment) (start segment) (end_ segment)
             (Py.strip (text segment)).

Definition bilingual_cue (segment : SubtitleSegment) : Subtitle :=
  mkSubtitle (index segment) (start segment) (end_ segment)
             (match translation segment with
              | Some t =>
                  if Py.blank t then Py.strip (text segment)
                  else String.append (Py.strip (text segment))
                         (String.append nl (Py.strip t))
              | None => Py.strip (text segment)
              end).

(** The fields validation never touches. *)
Definition identity_of (segment : SubtitleSegment) : Z * string * option string :=
  (index segment, text segment, translation segment).

Definition untranslated (segment : SubtitleSegment) : Prop :=
  Py.truthy (translation segment) = false.

End GeneratorMore.

(** ** The orchestrator: the stages behind [process_file]

    [AudioExtractor.extract_audio] of [src/audio/extractor.py] and the
    methods of [MotherLinePipeline] that run after the construction. *)

Module Stages.

Import Py Pipeline.

(** *** Extracting the audio *)

(** What [extract_audio] meets outside itself: the file system, the name
    [tempfile.mktemp] draws (before its suffix) and the run of FFmpeg on an
    input and an output path. *)
Record Extractor : Type := mkExtractor {
  input_exists : string -> bool;
  mktemp : string;
  ffmpeg_run : string -> string -> result unit
}.

Definition is_ffmpeg_error (e : exn) : bool :=
  match exn_cls e with
  | OtherException name => String.eqb name "ffmpeg.Error"
  | _ => false
  end.

(** [AudioExtractor.extract_audio(input_path, output_path=None)]: the path
    of the extracted audio, a [str]. *)
Definition extract_audio (x : Extractor) (input_path : string)
           (output_path : option string) : result string :=
  if negb (input_exists x input_path) then
    Raise (mkExn FileNotFoundError
                 (String.append "Arquivo não encontrado: " input_path))
  else
    let output_path' :=
      match output_path with
      | None => String.append (mktemp x) ".wav"
      | Some p => p
      end in
    match ffmpeg_run x input_path output_path' with
    | Ok _ => Ok output_path'
    | Raise e =>
        if is_ffmpeg_error e
        then Raise (mkExn RuntimeError
                          (String.append "Erro ao extrair áudio: " (exn_msg e)))
        else Raise e
    end.

(** *** Unpacking a [str] into two names

    A [str] is iterated by code point; in UTF-8 the bytes [10xxxxxx]
    continue a code point and every other byte starts one. *)
Definition continuation (c : ascii) : bool :=
  let n := nat_of_ascii c in (128 <=? n)%nat && (n <=? 191)%nat.

Fixpoint code_points (s : string) : nat :=
  match s with
  | EmptyString => 0%nat
  | String c s' => if continuation c then code_points s' else S (code_points s')
  end.

(** The bytes that continue the code point in front, and what follows. *)
Fixpoint continuation_bytes (s : string) : string * string :=
  match s with
  | String c s' =>
      if continuation c
      then let (more, rest) := continuation_bytes s' in (String c more, rest)
      else (EmptyString, s)
  | EmptyString => (EmptyString, EmptyString)
  end.

Definition first_code_point (s : string) : string * string :=
  match s with
  | String c s' => let (more, rest) := continuation_bytes s' in (String c more, rest)
  | EmptyString => (EmptyString, EmptyString)
  end.

(** [a, b = s] for a [str] [s]; the messages are those of CPython up to 3.13. *)
Definition unpack_pair (s : string) : result (string * string) :=
  match code_points s with
  | 2%nat => Ok (first_code_point s)
  | 0%nat => Raise (mkExn ValueError "not enough values to unpack (expected 2, got 0)")
  | 1%nat => Raise (mkExn ValueError "not enough values to unpack (expected 2, got 1)")
  | _ => Raise (mkExn ValueError "too many values to unpack (expected 2)")
  end.

(** [MotherLinePipeline._execute_pipeline].  Its first statement unpacks
    the [str] that [extract_audio] returns into [audio_data, sample_rate];
    the second divides [len(audio_data)], an [int], by [sample_rate], a
    [str] of one character.  No statement after these two is reached. *)
Definition _execute_pipeline (x : Extractor) (input_path output_path : string)
  : result ProcessingResult :=
  extracted <- extract_audio x input_path None ;;
  pair <- unpack_pair extracted ;;
  let (audio_data, sample_rate) := pair in
  Raise (mkExn TypeError "unsupported operand type(s) for /: 'int' and 'str'").

(** [process_file] of a pipeline whose stage sequence is the one above. *)
Definition run_with (x : Extractor) (exists_ : string -> bool)
           (parent : string -> string) (mkdir_ : string -> result unit)
           (stats : list (string * Q)) (elapsed_ : Q) : Run :=
  mkRun exists_ parent mkdir_ (_execute_pipeline x) stats elapsed_.

(** An extractor for which every input exists and FFmpeg succeeds. *)
Definition working_extractor : Extractor :=
  mkExtractor (fun _ => true) "/tmp/tmpk3v9x2ab" (fun _ _ => Ok tt).

(** *** Writing the subtitle files *)

(** What [_generate_subtitle_files] meets outside itself: [join d n] is
    [str(Path(d) / n)], and [write_text path content] is the run of a
    renderer or of [json.dump] on [path], which writes [content] or
    raises. *)
Record Disk : Type := mkDisk {
  join : string -> string -> string;
  write_text : string -> string -> result unit
}.

Definition known_format (format_type : string) : option Generator.format :=
  if String.eqb format_type "srt" then Some Generator.SRT
  else if String.eqb format_type "vtt" then Some Generator.VTT
  else if String.eqb format_type "ass" then Some Generator.ASS
  else None.

Definition name_of (f : Generator.format) : string :=
  match f with
  | Generator.SRT => "srt"
  | Generator.VTT => "vtt"
  | Generator.ASS => "ass"
  end.

(** [output_path / f"{base_name}.<format>"] *)
Definition file_of (disk : Disk) (output_path base_name : string)
           (f : Generator.format) : string :=
  join disk output_path (String.append base_name (String.append "." (name_of f))).

(** The locals the loop of [_generate_subtitle_files] carries from one
    turn to the next: the list [output_files] and the variable
    [output_file], unbound until a turn assigns it. *)
Definition files_state : Type := (list string * option string)%type.

(** One turn of the loop.  A format that is none of the three assigns
    nothing, so the [append] after the branches reads the [output_file] of
    an earlier turn, or raises [UnboundLocalError], which the [except] of
    the turn catches. *)
Definition generate_one (disk : Disk) (srt_compose : list Generator.Subtitle -> string)
           (segments : list Generator.SubtitleSegment)
           (output_path base_name : string) (st : files_state)
           (format_type : string) : files_state :=
  let (output_files, output_file) := st in
  match known_format format_type with
  | Some f =>
      let file := file_of disk output_path base_name f in
      match write_text disk file (Generator.render srt_compose segments f) with
      | Ok _ => (output_files ++ [file], Some file)
      | Raise _ => (output_files, Some file)
      end
  | None =>
      match output_file with
      | Some file => (output_files ++ [file], output_file)
      | None => (output_files, None)
      end
  end.

Definition json_bool (b : bool) : string := if b then "true" else "false".

(** One line [  "key": value] of the dump, indented by two spaces. *)
Definition json_line (key value : string) : string :=
  String.append "  "
    (String "034"%char
       (String.append key (String "034"%char (String.append ": " value)))).

(** [json.dumps(metadata, indent=2, ensure_ascii=False)] for an empty list
    of segments. *)
Definition empty_metadata (config : PipelineConfig) : string :=
  String.concat Generator.nl
    [ "{";
      json_line "total_segments" "0,";
      json_line "languages_detected" "[],";
      json_line "multilingual_mode"
        (String.append (json_bool (multilingual_detection config)) ",");
      json_line "preserve_original"
        (String.append (json_bool (preserve_original_languages config)) ",");
      json_line "language_labels"
        (String.append (json_bool (add_language_labels config)) ",");
      json_line "segments" "[]";
      "}" ]%string.

(** [_generate_metadata_file]: the entry of the first segment reads
    [seg.id], an attribute a [SubtitleSegment] does not have; the file is
    opened after the dictionary is built. *)
Definition _generate_metadata_file (disk : Disk) (config : PipelineConfig)
           (segments : list Generator.SubtitleSegment) (output_file : string)
  : result unit :=
  match segments with
  | [] => write_text disk output_file (empty_metadata config)
  | _ :: _ =>
      Raise (mkExn AttributeError "'SubtitleSegment' object has no attribute 'id'")
  end.

Definition _generate_subtitle_files (disk : Disk)
           (srt_compose : list Generator.Subtitle -> string)
           (config : PipelineConfig) (segments : list Generator.SubtitleSegment)
           (base_name output_path : string) : result (list string) :=
  let output_files :=
    fst (fold_left (generate_one disk srt_compose segments output_path base_name)
                   (output_formats config) ([], None)) in
  if multilingual_detection config then
    let metadata_file :=
      join disk output_path (String.append base_name "_metadata.json") in
    _ <- _generate_metadata_file disk config segments metadata_file ;;
    Ok (output_files ++ [metadata_file])
  else Ok output_files.

(** The formats whose file is written. *)
Definition written_ok (disk : Disk) (srt_compose : list Generator.Subtitle -> string)
           (segments : list Generator.SubtitleSegment)
           (output_path base_name : string) (f : Generator.format) : bool :=
  match write_text disk (file_of disk output_path base_name f)
                   (Generator.render srt_compose segments f) with
  | Ok _ => true
  | Raise _ => false
  end.

(** A directory in which [talk.vtt] cannot be written, and a
    configuration with the given formats. *)
Definition vtt_refusing_disk : Disk :=
  mkDisk (fun d n => String.append d (String.append "/" n))
         (fun path _ =>
            if String.eqb path "out/talk.vtt"
            then Raise (mkExn (OtherException "PermissionError") "Permission denied")
            else Ok tt).

Definition config_for (formats : list string) (many : bool) : PipelineConfig :=
  mkConfig "fast" "auto" None formats false false many false false
           "silero" "auto" None (Some "cache"%string).

Definition one_line : Generator.SubtitleSegment :=
  Generator.mkSubtitleSegment 1 0 2 "hello" None.

(** *** What the translation stage does to a segment *)






End Stages.

(** ** The command line ([src/cli/main.py]) *)

Module CLI.

Import Py Pipeline.

(** The parameters of [main], as [click] passes them. *)
Record Args : Type := mkArgs {
  input_file : option string;
  output_dir : option string;
  arg_mode : string;
  source_lang : string;
  target_lang : option string;
  arg_output_formats : list string;
  embed : bool;
  bilingual : bool;
  multilingual : bool;
  preserve_languages : bool;
  language_labels : bool;
  arg_vad_method : string;
  arg_device : string;
  threads : option Z;
  verbose : bool;
  quiet : bool;
  info : bool
}.

(** How a call of [main] ends: it returns, it leaves through
    [sys.exit(code)], or an exception escapes it. *)
Inductive status : Type :=
| Returned
| Exited (code : Z)
| Escaped (e : exn).

(** The checks of [main] between the [--info] branch and the [try] block,
    and the configuration it builds; [None] stands for [sys.exit(1)]. *)
Definition checked_config (default_cache : string) (a : Args) : option PipelineConfig :=
  if negb (truthy (input_file a)) then None
  else if bilingual a && negb (truthy (target_lang a)) then None
  else if preserve_languages a && negb (multilingual a) then None
  else if language_labels a && negb (multilingual a) then None
  else
    let output_formats' :=
      match arg_output_formats a with [] => ["srt"%string] | l => l end in
    let source_lang' :=
      if multilingual a
      then if String.eqb (source_lang a) "auto" then "multilingual"%string
           else source_lang a
      else source_lang a in
    Some (new_PipelineConfig default_cache
            (mkConfig (arg_mode a) source_lang' (target_lang a) output_formats'
                      (embed a) (bilingual a) (multilingual a)
                      (preserve_languages a) (language_labels a)
                      (arg_vad_method a) (arg_device a) (threads a) None)).

(** The function [main], called by [click] with the parsed arguments
    (the parsing itself, which rejects a missing file or an unknown choice
    before the call, is not modelled): [show_system_info] is the outcome
    of the function of that name, [run] the surroundings of [process_file]
    for a pipeline. *)
Definition main (env : Collaborators) (run : MotherLinePipeline -> Run)
           (show_system_info : result unit) (default_cache : string) (a : Args)
  : status :=
  if info a then
    match show_system_info with
    | Ok _ => Returned
    | Raise e => Escaped e
    end
  else
    match checked_config default_cache a with
    | None => Exited 1
    | Some config =>
        match new_MotherLinePipeline env config with
        | Raise _ => Exited 1
        | Ok pipeline =>
            (* [input_file] is a non-empty [str] past the checks *)
            let file := match input_file a with Some f => f | None => EmptyString end in
            match process_file (run pipeline) file (output_dir a) with
            | Ok result => if success result then Returned else Exited 1
            | Raise _ => Exited 1
            end
        end
    end.

(** The invariant of the configurations that leave [main]. *)
Definition coherent (config : PipelineConfig) : Prop :=
  (bilingual_subtitles config = true -> truthy (target_language config) = true)
  /\ (preserve_original_languages config = true -> multilingual_detection config = true)
  /\ (add_language_labels config = true -> multilingual_detection config = true)
  /\ (multilingual_detection config = true -> source_language config <> "auto"%string)
  /\ (multilingual_detection config = true ->
      truthy (target_language config) = false ->
      preserve_original_languages config = true)
  /\ output_formats config <> []
  /\ cache_dir config <> None.

(** A full command line for a file and a target language. *)
Definition command_line (file : string) (target : option string) (many : bool) : Args :=
  mkArgs (Some file) None "fast" "auto" target [] false false many false many
         "silero" "auto" None false false false.

End CLI.

(** ** The recognition engine ([src/asr/whisper_engine.py]) *)

Module Whisper.

Import Py Pipeline.

(** The [info] a transcription of the model comes with. *)
Record Info : Type := mkInfo {
  info_language : string;
  language_probability : Q
}.

(** A segment as the model yields it; [avg_logprob] may be absent. *)
Record Yielded : Type := mkYielded {
  y_start : Q;
  y_end : Q;
  y_text : string;
  avg_logprob : option Q
}.

(** A loaded [WhisperModel]: [transcribe] with the language it is given,
    and [detect_language] when the model has that method. *)
Record WhisperModel : Type := mkModel {
  model_transcribe : list Q -> option string -> result (list Yielded * Info);
  model_detect_language : option (list Q -> result (string * Q))
}.

Record WhisperEngine : Type := mkEngine {
  engine_language : string;
  model : option WhisperModel;
  model_loaded : bool
}.

Definition language_detection_threshold : Q := 7 # 10.

(** [load_model]; [loading] is the outcome of the constructor call of [WhisperModel]
    should the call be made. *)
Definition load_model (loading : result WhisperModel) (self : WhisperEngine)
  : bool * WhisperEngine :=
  if model_loaded self then (true, self)
  else
    match loading with
    | Ok m => (true, mkEngine (engine_language self) (Some m) true)
    | Raise _ => (false, self)
    end.

Definition detect_segment_language (self : WhisperEngine) (audio : list Q)
           (sample_rate : Z) : string :=
  if (Z.of_nat (List.length audio) <? sample_rate * 2)%Z then "unknown"%string
  else
    match model self with
    | Some m =>
        match model_detect_language m with
        | Some detect =>
            match detect audio with
            | Ok (language, confidence) =>
                if Qltb language_detection_threshold confidence then language
                else "unknown"%string
            | Raise _ => "unknown"%string
            end
        | None => "unknown"%string
        end
    | None => "unknown"%string
    end.

(** The loop of [transcribe_audio] over the segments of the model, from
    the [i]-th on. *)
Fixpoint convert (self : WhisperEngine) (audio_data : list Q) (sample_rate : Z)
         (multilingual_mode : bool) (info : Info) (i : nat)
         (segments : list Yielded) : list TranscriptionSegment :=
  match segments with
  | [] => []
  | segment :: rest =>
      let detected_lang :=
        if multilingual_mode then
          let start_sample :=
            AudioSegments.int_of (y_start segment * inject_Z sample_rate) in
          let end_sample :=
            AudioSegments.int_of (y_end segment * inject_Z sample_rate) in
          detect_segment_language self
            (AudioSegments.slice audio_data start_sample end_sample) sample_rate
        else "unknown"%string in
      let known := multilingual_mode && negb (String.eqb detected_lang "unknown") in
      mkSegment (Z.of_nat i + 1) (y_start segment) (y_end segment)
                (Py.strip (y_text segment))
                (match avg_logprob segment with Some c => c | None => 0 end)
                (if known then detected_lang else info_language info)
                (if known then 8 # 10 else language_probability info)
                None
        :: convert self audio_data sample_rate multilingual_mode info (S i) rest
  end.

(** [transcribe_audio].  After the loop the method evaluates
    [time.time() - start_time]; the module imports no [time] and binds no
    [start_time], so the name lookup raises [NameError] inside the [try],
    whose handler raises [RuntimeError]. *)
Definition transcribe_audio (loading : result WhisperModel) (self : WhisperEngine)
           (audio_data : list Q) (sample_rate : Z) (language : option string)
           (multilingual_mode : bool)
  : result TranscriptionResult * WhisperEngine :=
  let self' := snd (load_model loading self) in
  let lang :=
    match language with
    | Some l => if truthy language then l else engine_language self'
    | None => engine_language self'
    end in
  (try_except
     (out <- match model self' with
             | Some m =>
                 model_transcribe m audio_data
                   (if String.eqb lang "auto" then None else Some lang)
             | None =>
                 Raise (mkExn AttributeError
                              "'NoneType' object has no attribute 'transcribe'")
             end ;;
      let (segments, info) := out in
      let result_segments :=
        convert self' audio_data sample_rate multilingual_mode info 0 segments in
      Raise (mkExn (OtherException "NameError") "name 'time' is not defined"))
     (fun e =>
        Raise (mkExn RuntimeError
                     (String.append "Falha na transcrição: " (exn_msg e)))),
   self').

(** The segment [transcribe_segments] appends when a piece fails. *)
Definition placeholder (i : nat) (start_time end_time : Q) : TranscriptionSegment :=
  mkSegment (Z.of_nat i + 1) start_time end_time "[Erro na transcrição]" 0
            "unknown" 0 None.

(** [segment.start += start_time; segment.end += start_time] *)
Definition shift (start_time : Q) (segment : TranscriptionSegment)
  : TranscriptionSegment :=
  mkSegment (id segment) (start segment + start_time) (end_ segment + start_time)
            (text segment) (confidence segment) (language segment)
            (language_confidence segment) (translated_text segment).

(** The loop of [transcribe_segments] from the [i]-th piece on;
    [loading k] is the outcome of loading the model during the [k]-th turn. *)
Fixpoint transcribe_each (loading : nat -> result WhisperModel)
         (self : WhisperEngine) (i : nat)
         (audio_segments : list (list Q * Q * Q)) (language : option string)
  : list TranscriptionSegment * WhisperEngine :=
  match audio_segments with
  | [] => ([], self)
  | (audio_data, start_time, end_time) :: rest =>
      let (r, self1) :=
        transcribe_audio (loading i) self audio_data 16000 language false in
      let here :=
        match r with
        | Ok transcription => map (shift start_time) (segments transcription)
        | Raise _ => [placeholder i start_time end_time]
        end in
      let (more, self2) := transcribe_each loading self1 (S i) rest language in
      (here ++ more, self2)
  end.

Definition transcribe_segments (first_loading : result WhisperModel)
           (loading : nat -> result WhisperModel) (self : WhisperEngine)
           (audio_segments : list (list Q * Q * Q)) (language : option string)
  : list TranscriptionSegment * WhisperEngine :=
  transcribe_each loading (snd (load_model first_loading self)) 0
                  audio_segments language.

(** The placeholders of the pieces, numbered from [i + 1]. *)
Fixpoint placeholders (i : nat) (audio_segments : list (list Q * Q * Q))
  : list TranscriptionSegment :=
  match audio_segments with
  | [] => []
  | piece :: rest =>
      placeholder i (snd (fst piece)) (snd piece) :: placeholders (S i) rest
  end.

(** [_get_optimal_threads]: [cpu_count] is [psutil.cpu_count(logical=False)],
    which is [None] when the count is unknown, and [memory_total] the
    bytes of [psutil.virtual_memory().total]. *)
Definition _get_optimal_threads (cpu_count : option Z) (memory_total : Z)
  : result Z :=
  match cpu_count with
  | None =>
      Raise (mkExn TypeError
                   "unsupported operand type(s) for -: 'NoneType' and 'int'")
  | Some n =>
      let optimal_threads := Z.max 1 (n - 1) in
      let memory_gb := inject_Z memory_total / inject_Z (1024 ^ 3) in
      if Qltb memory_gb 4 then Ok (Z.min optimal_threads 2)
      else if Qltb memory_gb 8 then Ok (Z.min optimal_threads 4)
      else Ok optimal_threads
  end.

(** An engine that has loaded a model answering every call. *)
Definition ready_model : WhisperModel :=
  mkModel (fun _ _ => Ok ([mkYielded 0 2 " hello " None], mkInfo "en" 1)) None.

Definition ready_engine : WhisperEngine := mkEngine "auto" (Some ready_model) true.

End Whisper.

(** ** The translator ([src/translation/translator.py]) *)

Module Translation.

Import Py.

Record TranslationResult : Type := mkTranslation {
  original_text : string;
  translated_text : string;
  source_language : string;
  target_language : string;
  confidence : Q
}.

(** The Argos package behind the translator: the index of the packages
    that can be downloaded, as pairs [(from_code, to_code)], the download
    and installation of one of them, and the translation proper. *)
Record Argos : Type := mkArgos {
  get_available_packages : result (list (string * string));
  install : string -> string -> result unit;
  argos_translate : string -> string -> string -> result string
}.

(** The state of a [MotherLineTranslator]; the set [installed_packages]
    is kept as a list. *)
Record MotherLineTranslator : Type := mkTranslator {
  auto_download : bool;
  installed_packages : list string
}.

Definition lower_char (c : ascii) : ascii :=
  let n := nat_of_ascii c in
  if (65 <=? n)%nat && (n <=? 90)%nat then ascii_of_nat (n + 32) else c.

Fixpoint lower (s : string) : string :=
  match s with
  | EmptyString => EmptyString
  | String c s' => String (lower_char c) (lower s')
  end.

(** [f"{from_code}-{to_code}"] *)
Definition package_key (from_code to_code : string) : string :=
  String.append from_code (String.append "-" to_code).

Definition installed (self : MotherLineTranslator) (key : string) : bool :=
  existsb (String.eqb key) (installed_packages self).

(** [_ensure_translation_package]: whether the package is there, and the
    translator after the call. *)
Definition _ensure_translation_package (argos : Argos) (self : MotherLineTranslator)
           (from_code to_code : string) : bool * MotherLineTranslator :=
  let package_key := package_key from_code to_code in
  if installed self package_key then (true, self)
  else if negb (auto_download self) then (false, self)
  else
    match get_available_packages argos with
    | Ok available_packages =>
        match find (fun package => String.eqb (fst package) from_code
                                   && String.eqb (snd package) to_code)
                   available_packages with
        | None => (false, self)
        | Some target_package =>
            match install argos (fst target_package) (snd target_package) with
            | Ok _ =>
                (true, mkTranslator (auto_download self)
                                    (package_key :: installed_packages self))
            | Raise _ => (false, self)
            end
        end
    | Raise _ => (false, self)
    end.

(** The result that hands the text back untranslated. *)
Definition unchanged (text source_lang target_lang : string) (c : Q)
  : TranslationResult :=
  mkTranslation text text source_lang target_lang c.

(** One leg of [_translate_via_english]: the text in [to_code], or the
    exception of the [try] block; no call is made for a leg that starts
    and ends in English. *)
Definition leg (argos : Argos) (self : MotherLineTranslator) (text : string)
           (from_code to_code other : string)
  : result string * MotherLineTranslator :=
  if negb (String.eqb other "en") then
    let (ok, self') := _ensure_translation_package argos self from_code to_code in
    if negb ok then
      (Raise (mkExn (OtherException "Exception")
                    (String.append "Pacote "
                       (String.append from_code
                          (String.append " -> "
                             (String.append to_code " não disponível"))))),
       self')
    else (argos_translate argos text from_code to_code, self')
  else (Ok text, self).

Definition _translate_via_english (argos : Argos) (self : MotherLineTranslator)
           (text source_lang target_lang : string)
  : TranslationResult * MotherLineTranslator :=
  match leg argos self text source_lang "en" source_lang with
  | (Ok english_text, self1) =>
      match leg argos self1 english_text "en" target_lang target_lang with
      | (Ok final_text, self2) =>
          (mkTranslation text final_text source_lang target_lang (6 # 10), self2)
      | (Raise _, self2) => (unchanged text source_lang target_lang 0, self2)
      end
  | (Raise _, self1) => (unchanged text source_lang target_lang 0, self1)
  end.

Definition translate_text (argos : Argos) (self : MotherLineTranslator)
           (text source_lang target_lang : string)
  : TranslationResult * MotherLineTranslator :=
  if blank text then (unchanged text source_lang target_lang 0, self)
  else
    let source_lang := lower source_lang in
    let target_lang := lower target_lang in
    if String.eqb source_lang target_lang
    then (unchanged text source_lang target_lang 1, self)
    else
      let (ok, self') :=
        _ensure_translation_package argos self source_lang target_lang in
      if negb ok then
        if negb (String.eqb source_lang "en") && negb (String.eqb target_lang "en")
        then _translate_via_english argos self' text source_lang target_lang
        else (unchanged text source_lang target_lang 0, self')
      else
        match argos_translate argos text source_lang target_lang with
        | Ok translated =>
            (mkTranslation text translated source_lang target_lang (8 # 10), self')
        | Raise _ => (unchanged text source_lang target_lang 0, self')
        end.

(** [translate_segments]: a segment is a dictionary, of which the method
    reads [segment.get('text', '')]. *)
Definition text_of (segment : option string) : string :=
  match segment with Some t => t | None => EmptyString end.

Fixpoint translate_segments (argos : Argos) (self : MotherLineTranslator)
         (segments : list (option string)) (source_lang target_lang : string)
  : list TranslationResult * MotherLineTranslator :=
  match segments with
  | [] => ([], self)
  | segment :: rest =>
      let (result, self1) :=
        translate_text argos self (text_of segment) source_lang target_lang in
      let (results, self2) :=
        translate_segments argos self1 rest source_lang target_lang in
      (result :: results, self2)
  end.

(** [translate_text] as the pipeline calls it, with the target language of
    its configuration: the translated text of the result.  A target of
    [None] has no [lower]. *)
Definition as_pipeline_translator (argos : Argos) (self : MotherLineTranslator)
  : Pipeline.Translator :=
  fun text source_lang target =>
    match target with
    | Some target_lang =>
        Ok (translated_text (fst (translate_text argos self text source_lang target_lang)))
    | None =>
        if blank text then Ok text
        else Raise (mkExn AttributeError "'NoneType' object has no attribute 'lower'")
    end.

(** What every call of [translate_text] on [text] from the state [self]
    guarantees of its result and of the state it leaves. *)
Definition dependable (text : string) (self : MotherLineTranslator)
           (out : TranslationResult * MotherLineTranslator) : Prop :=
  original_text (fst out) = text
  /\ (confidence (fst out) = 0 \/ confidence (fst out) = 6 # 10
      \/ confidence (fst out) = 8 # 10 \/ confidence (fst out) = 1)
  /\ (confidence (fst out) = 0 \/ confidence (fst out) = 1 ->
      translated_text (fst out) = text)
  /\ auto_download (snd out) = auto_download self
  /\ incl (installed_packages self) (installed_packages (snd out)).

(** What a call guarantees when downloads are switched off. *)
Definition offline_result (text : string) (self : MotherLineTranslator)
           (out : TranslationResult * MotherLineTranslator) : Prop :=
  snd out = self
  /\ (installed_packages self = [] ->
      translated_text (fst out) = text /\ confidence (fst out) <> 8 # 10
      /\ confidence (fst out) <> 6 # 10).

(** A translator with no package and downloads switched off, and an Argos
    that knows one package. *)
Definition offline : MotherLineTranslator := mkTranslator false [].

Definition argos_pt_en : Argos :=
  mkArgos (Ok [("pt", "en")]%string) (fun _ _ => Ok tt)
          (fun text _ _ => Ok (String.append "EN:" text)).

End Translation.
Unset Implicit Arguments.


(** ** Arithmetic helpers on [Q] *)

Lemma Qltb_lt (x y : Q) : Py.Qltb x y = true <-> x < y.
Proof.
  unfold Py.Qltb. rewrite negb_true_iff.
  split; intro H.
  - apply Qnot_le_lt. intro Hle. apply Qle_bool_iff in Hle. congruence.
  - apply not_true_is_false. intro Hle. apply Qle_bool_iff in Hle.
    apply (Qlt_not_le _ _ H Hle).
Qed.

Lemma Qltb_ge (x y : Q) : Py.Qltb x y = false <-> y <= x.
Proof.
  unfold Py.Qltb. rewrite negb_false_iff. apply Qle_bool_iff.
Qed.

Lemma min_spec (a b : Q) :
  (b < a /\ Py.min a b = b) \/ (a <= b /\ Py.min a b = a).
Proof.
  unfold Py.min. destruct (Py.Qltb b a) eqn:E.
  - left. split; [now apply Qltb_lt | reflexivity].
  - right. split; [now apply Qltb_ge | reflexivity].
Qed.

Lemma Qle_bool_false (x y : Q) : Qle_bool x y = false <-> y < x.
Proof.
  split; intro H.
  - apply Qnot_le_lt. intro Hle. apply Qle_bool_iff in Hle. congruence.
  - apply not_true_is_false. intro Hle. apply Qle_bool_iff in Hle.
    apply (Qlt_not_le _ _ H Hle).
Qed.

Lemma min_le_l (a b : Q) : Py.min a b <= a.
Proof. destruct (min_spec a b) as [[H ->] | [H ->]]; lra. Qed.



(** ** The segmenter: spans, their order, and the loops *)

Section SpanLemmas.

Import VAD Spans.






Lemma spans_ok_upto (D : Q) (l : list span) : spans_ok D l -> upto D l.
Proof.
  intros [F _]. eapply Forall_impl; [| exact F].
  intros a (_ & _ & H). exact H.
Qed.

Lemma spans_ok_mono (D D' : Q) (l : list span) :
  D <= D' -> spans_ok D l -> spans_ok D' l.
Proof.
  intros HD [F S]. split; [| exact S].
  eapply Forall_impl; [| exact F]. intros a (H0 & H1 & H2).
  repeat split; try assumption. lra.
Qed.



(** *** The window loops *)

Lemma split_loop_fixed_loop (fuel : nat) (m e c : Q) (acc : list span) :
  split_loop fuel m e c acc = fixed_loop fuel e m c acc.
Proof.
  revert c acc. induction fuel as [| fuel IH]; intros c acc; simpl.
  - reflexivity.
  - destruct (Py.Qltb c e); [apply IH | reflexivity].
Qed.





End SpanLemmas.

(** ** The three strategies *)

Section Strategies.

Import VAD Spans.




Lemma fixed_loop_not_fail (fuel : nat) (D L cur : Q) (acc : list span) (e : exn) :
  fixed_loop fuel D L cur acc <> Fail e.
Proof.
  revert cur acc. induction fuel as [| fuel IH]; intros cur acc; simpl.
  - discriminate.
  - destruct (Py.Qltb cur D); [apply IH | discriminate].
Qed.

(** *** Sample counts as seconds *)





(** *** Fixed windows *)




(** *** Silero *)



Lemma silero_loop_not_fail (fuel : nat) (self : VADSegmenter) (e : exn) :
  forall raw segs, silero_loop fuel self raw segs <> Fail e.
Proof.
  induction raw as [| [s t] rest IH]; intros segs; simpl.
  - discriminate.
  - destruct (Qle_bool _ _); [| apply IH].
    destruct (Py.Qltb _ _); [| apply IH].
    destruct (_split_long_segment fuel self s t) as [parts | e' |] eqn:Es.
    + apply IH.
    + unfold _split_long_segment in Es. rewrite split_loop_fixed_loop in Es.
      now apply fixed_loop_not_fail in Es.
    + discriminate.
Qed.



(** *** WebRTC frames *)







(** *** The dispatcher *)









(** *** Fixed windows: totality and shape *)





(** The scenario of the specification, run: 192000 samples at 16 kHz. *)
Example segment_fixed_twelve_seconds :
  _segment_fixed 3 (Examples.fixed_with 10 16000) (Examples.silence 192000%Z)
  = Done [(0, 10); (10, 192000 # 16000)].
Proof. vm_compute. reflexivity. Qed.


(** *** The fallback policy *)



(** The frame loop on a burst of speech between two silences. *)
Example segment_webrtc_burst :
  segment_audio Examples.webrtc_env 1 Examples.webrtc_segmenter Examples.burst
  = Done [(60 # 1000, 180 # 1000)].
Proof. vm_compute. reflexivity. Qed.

(** Silero failing to load where WebRTC is at hand. *)
Example init_silero_fallback :
  __init__ Examples.webrtc_env "silero" 1 (1 # 2) 30 16000
  = Ok (mkVAD "webrtc" 1 (1 # 2) 30 16000 None (Some Examples.loud_frames)).
Proof. reflexivity. Qed.

Example init_silero_fallback_fixed :
  __init__ Examples.bare_env "silero" 1 (1 # 2) 30 16000
  = Ok (Examples.fixed_with 30 16000).
Proof. reflexivity. Qed.

End Strategies.

(** ** The serializer *)

Section Serializer.

Import Generator Validity.

Lemma timing_ok_settled (segment : SubtitleSegment) :
  timing_ok segment <-> settled segment.
Proof.
  unfold timing_ok, settled. rewrite !Qltb_ge, Qle_bool_false. tauto.
Qed.

Lemma validate_segment_settled (segment : SubtitleSegment) :
  settled segment -> validate_segment segment = (segment, nonblank segment).
Proof.
  intros (H1 & H2 & H3). unfold validate_segment, nonblank.
  rewrite H1, H2. destruct (Py.blank (text segment)); [reflexivity |].
  rewrite H3. reflexivity.
Qed.

(** Whatever the loop leaves behind passes the tests it went through. *)
Lemma validate_segment_leaves (segment s : SubtitleSegment) (keep : bool) :
  validate_segment segment = (s, keep) ->
  keep = nonblank segment
  /\ text s = text segment
  /\ 0 <= start s
  /\ start s < end_ s
  /\ (keep = true -> end_ s - start s <= max_duration).
Proof.
  unfold validate_segment, nonblank.
  set (s1 := if Py.Qltb (start segment) 0 then set_start segment 0 else segment).
  assert (T1 : text s1 = text segment)
    by (subst s1; destruct (Py.Qltb (start segment) 0); reflexivity).
  assert (A1 : 0 <= start s1).
  { subst s1. destruct (Py.Qltb (start segment) 0) eqn:E; simpl.
    - lra.
    - now apply Qltb_ge in E. }
  clearbody s1.
  set (s2 := if Qle_bool (end_ s1) (start s1) then set_end s1 (start s1 + 1) else s1).
  assert (T2 : text s2 = text s1)
    by (subst s2; destruct (Qle_bool (end_ s1) (start s1)); reflexivity).
  assert (S2 : start s2 = start s1)
    by (subst s2; destruct (Qle_bool (end_ s1) (start s1)); reflexivity).
  assert (A2 : start s2 < end_ s2).
  { subst s2. destruct (Qle_bool (end_ s1) (start s1)) eqn:E; simpl.
    - lra.
    - now apply Qle_bool_false in E. }
  clearbody s2.
  rewrite <- T1, <- T2.
  destruct (Py.blank (text s2)) eqn:E3.
  - intro H. inversion H; subst.
    repeat split; try assumption; try discriminate. now rewrite S2.
  - set (s3 := if Py.Qltb max_duration (end_ s2 - start s2)
               then set_end s2 (start s2 + max_duration) else s2).
    assert (T3 : text s3 = text s2)
      by (subst s3; destruct (Py.Qltb max_duration (end_ s2 - start s2)); reflexivity).
    assert (S3 : start s3 = start s2)
      by (subst s3; destruct (Py.Qltb max_duration (end_ s2 - start s2)); reflexivity).
    assert (A3 : start s3 < end_ s3 /\ end_ s3 - start s3 <= max_duration).
    { subst s3. destruct (Py.Qltb max_duration (end_ s2 - start s2)) eqn:E; simpl.
      - unfold max_duration. lra.
      - apply Qltb_ge in E. split; assumption. }
    clearbody s3.
    intro H. inversion H; subst.
    destruct A3 as [A3 B3].
    repeat split; try assumption; [now rewrite S3, S2 | intros _; exact B3].
Qed.

Lemma validate_segment_idempotent (segment s : SubtitleSegment) (keep : bool) :
  validate_segment segment = (s, keep) -> validate_segment s = (s, keep).
Proof.
  intro H.
  destruct (validate_segment_leaves _ _ _ H) as (Hk & Ht & H0 & H1 & H2).
  unfold validate_segment.
  assert (E1 : Py.Qltb (start s) 0 = false) by now apply Qltb_ge.
  rewrite E1.
  assert (E2 : Qle_bool (end_ s) (start s) = false) by now apply Qle_bool_false.
  rewrite E2.
  unfold nonblank in Hk. rewrite <- Ht in Hk.
  destruct (Py.blank (text s)); simpl in Hk; subst keep; [reflexivity |].
  assert (E3 : Py.Qltb max_duration (end_ s - start s) = false)
    by (apply Qltb_ge; now apply H2).
  now rewrite E3.
Qed.

(** *** Validation in place *)

Lemma validate_segment_keep (segment s : SubtitleSegment) (keep : bool) :
  validate_segment segment = (s, keep) ->
  keep = nonblank segment /\ nonblank s = nonblank segment.
Proof.
  intro H. destruct (validate_segment_leaves _ _ _ H) as (Hk & Ht & _).
  split; [exact Hk |]. unfold nonblank. now rewrite Ht.
Qed.

Lemma validate_segment_fixed (segment s : SubtitleSegment) (keep : bool) :
  validate_segment segment = (s, keep) ->
  validate_segment s = (s, nonblank s).
Proof.
  intro H. destruct (validate_segment_keep _ _ _ H) as [Hk Hn].
  rewrite (validate_segment_idempotent _ _ _ H). congruence.
Qed.

Lemma nth_error_store_same (h : heap) (r : nat) (old v : SubtitleSegment) :
  nth_error h r = Some old -> nth_error (store h r v) r = Some v.
Proof.
  revert r. induction h as [| x h IH]; intros [| r] H; simpl in *;
    try discriminate; [reflexivity | now apply IH].
Qed.

Lemma nth_error_store_other (h : heap) (r r' : nat) (v : SubtitleSegment) :
  r <> r' -> nth_error (store h r v) r' = nth_error h r'.
Proof.
  revert r r'. induction h as [| x h IH]; intros [| r] [| r'] H; simpl;
    try reflexivity; try congruence.
  apply IH. congruence.
Qed.

Lemma store_same (h : heap) (r : nat) (v : SubtitleSegment) :
  nth_error h r = Some v -> store h r v = h.
Proof.
  revert r. induction h as [| x h IH]; intros [| r] H; simpl in *;
    try discriminate.
  - now inversion H.
  - f_equal. now apply IH.
Qed.

(** On a heap whose listed objects are all fixed, the loop changes nothing
    and returns the references it keeps. *)
Lemma validate_heap_fixed (h : heap) (segments : list nat) :
  (forall r, In r segments -> fixed_at h r) ->
  forall acc,
    validate_segments_heap h segments acc = (h, acc ++ filter (kept h) segments).
Proof.
  induction segments as [| r rest IH]; intros Hfix acc; simpl.
  - now rewrite app_nil_r.
  - unfold kept at 1.
    destruct (nth_error h r) as [segment |] eqn:Er.
    + rewrite (Hfix r (or_introl eq_refl) segment Er).
      rewrite (store_same h r segment Er).
      rewrite IH by (intros r' Hr'; apply Hfix; now right).
      destruct (nonblank segment); [now rewrite <- app_assoc | reflexivity].
    + apply IH. intros r' Hr'. apply Hfix. now right.
Qed.

(** After the loop, every listed object is fixed, fixed objects are where
    they were, and the references returned are those of the kept objects. *)
Lemma validate_heap_result (segments : list nat) :
  forall h acc h1 l1,
    validate_segments_heap h segments acc = (h1, l1) ->
    (forall r, In r segments -> fixed_at h1 r)
    /\ (forall r, fixed_at h r -> nth_error h1 r = nth_error h r)
    /\ l1 = acc ++ filter (kept h1) segments.
Proof.
  induction segments as [| r rest IH]; intros h acc h1 l1 H; simpl in H.
  - inversion H; subst. repeat split; [intros r [] | now rewrite app_nil_r].
  - destruct (nth_error h r) as [segment |] eqn:Er.
    + destruct (validate_segment segment) as [s keep] eqn:Ev.
      apply IH in H. destruct H as (Hfixed & Hsame & Hl1).
      pose proof (validate_segment_fixed _ _ _ Ev) as Hs.
      destruct (validate_segment_keep _ _ _ Ev) as [Hk Hn].
      assert (Hr' : fixed_at (store h r s) r).
      { intros x Hx. rewrite (nth_error_store_same h r segment s Er) in Hx.
        inversion Hx; subst. exact Hs. }
      assert (Hr1 : nth_error h1 r = Some s).
      { rewrite (Hsame r Hr'). now apply (nth_error_store_same h r segment). }
      split; [| split].
      * intros r0 [<- | Hin]; [| now apply Hfixed].
        intros x Hx. rewrite Hr1 in Hx. inversion Hx; subst. exact Hs.
      * intros r0 Hr0. destruct (Nat.eq_dec r r0) as [<- | Hne].
        -- rewrite Hr1, Er. f_equal.
           specialize (Hr0 segment Er). rewrite Ev in Hr0. now inversion Hr0.
        -- rewrite Hsame.
           ++ now apply nth_error_store_other.
           ++ intros x Hx. rewrite nth_error_store_other in Hx by exact Hne.
              now apply Hr0.
      * rewrite Hl1. simpl. unfold kept at 2. rewrite Hr1, Hn, <- Hk.
        destruct keep; [now rewrite <- app_assoc | reflexivity].
    + apply IH in H. destruct H as (Hfixed & Hsame & Hl1).
      split; [| split].
      * intros r0 [<- | Hin]; [| now apply Hfixed].
        intros x Hx. rewrite Hsame in Hx; [congruence |].
        intros y Hy. congruence.
      * exact Hsame.
      * rewrite Hl1. simpl. unfold kept at 2.
        rewrite Hsame by (intros y Hy; congruence).
        now rewrite Er.
Qed.

Lemma filter_filter (A : Type) (p : A -> bool) (l : list A) :
  filter p (filter p l) = filter p l.
Proof.
  induction l as [| x l IH]; simpl; [reflexivity |].
  destruct (p x) eqn:E; simpl; [now rewrite E, IH | exact IH].
Qed.

Lemma validate_heap_idempotent (h h1 : heap) (segments l1 : list nat) :
  validate_segments_heap h segments [] = (h1, l1) ->
  validate_segments_heap h1 l1 [] = (h1, l1)
  /\ validate_segments_heap h1 segments [] = (h1, l1).
Proof.
  intro H. apply validate_heap_result in H.
  destruct H as (Hfixed & _ & Hl1). simpl in Hl1. subst l1. split.
  - rewrite validate_heap_fixed.
    + simpl. now rewrite filter_filter.
    + intros r Hr. apply filter_In in Hr. now apply Hfixed.
  - now rewrite validate_heap_fixed.
Qed.

Lemma validate_segments_app (l1 l2 : list SubtitleSegment) :
  validate_segments (l1 ++ l2) = validate_segments l1 ++ validate_segments l2.
Proof.
  induction l1 as [| x l1 IH]; simpl; [reflexivity |].
  destruct (validate_segment x) as [s keep]. destruct keep; simpl; now rewrite IH.
Qed.

Lemma deref_app (h : heap) (l1 l2 : list nat) :
  deref h (l1 ++ l2) = deref h l1 ++ deref h l2.
Proof. unfold deref. apply flat_map_app. Qed.

(** Validating the objects of a list gives the same values before and
    after one of them has been replaced by its validated form. *)
Lemma validate_deref_store (h : heap) (r : nat) (segment s : SubtitleSegment)
      (keep : bool) (l : list nat) :
  nth_error h r = Some segment ->
  validate_segment segment = (s, keep) ->
  validate_segments (deref (store h r s) l) = validate_segments (deref h l).
Proof.
  intros Er Ev. induction l as [| r0 l IH]; [reflexivity |].
  change (deref (store h r s) (r0 :: l))
    with ((match nth_error (store h r s) r0 with Some v => [v] | None => [] end)
            ++ deref (store h r s) l).
  change (deref h (r0 :: l))
    with ((match nth_error h r0 with Some v => [v] | None => [] end) ++ deref h l).
  rewrite !validate_segments_app, IH. f_equal.
  destruct (Nat.eq_dec r r0) as [<- | Hne].
  - rewrite (nth_error_store_same h r segment s Er), Er. simpl.
    now rewrite Ev, (validate_segment_idempotent _ _ _ Ev).
  - now rewrite nth_error_store_other.
Qed.

(** The loop on values computes what the loop on the heap leaves. *)
Lemma validate_heap_values (segments : list nat) :
  forall h acc h1 l1,
    validate_segments_heap h segments acc = (h1, l1) ->
    deref h1 l1 = deref h1 acc ++ validate_segments (deref h segments).
Proof.
  induction segments as [| r rest IH]; intros h acc h1 l1 H.
  - simpl in H. inversion H; subst. simpl. now rewrite app_nil_r.
  - simpl in H.
    change (deref h (r :: rest))
      with ((match nth_error h r with Some v => [v] | None => [] end)
              ++ deref h rest).
    destruct (nth_error h r) as [segment |] eqn:Er.
    + destruct (validate_segment segment) as [s keep] eqn:Ev.
      pose proof (validate_heap_result _ _ _ _ _ H) as (_ & Hsame & _).
      pose proof (validate_segment_fixed _ _ _ Ev) as Hs.
      assert (Hr1 : nth_error h1 r = Some s).
      { rewrite Hsame.
        - now apply (nth_error_store_same h r segment).
        - intros x Hx. rewrite (nth_error_store_same h r segment s Er) in Hx.
          inversion Hx; subst. exact Hs. }
      apply IH in H. rewrite H.
      rewrite (validate_deref_store h r segment s keep rest Er Ev).
      simpl. rewrite Ev. destruct keep.
      * rewrite deref_app. unfold deref at 2. simpl. rewrite Hr1.
        simpl. now rewrite <- app_assoc.
      * reflexivity.
    + apply IH in H. rewrite H. reflexivity.
Qed.

Lemma validate_values_idempotent (segments : list SubtitleSegment) :
  validate_segments (validate_segments segments) = validate_segments segments.
Proof.
  induction segments as [| segment rest IH]; simpl.
  - reflexivity.
  - destruct (validate_segment segment) as [s keep] eqn:E.
    destruct keep.
    + simpl. rewrite (validate_segment_idempotent _ _ _ E). now rewrite IH.
    + exact IH.
Qed.

(** C3.  Validation is idempotent: validating the validated list again
    keeps every segment of it, with the same start, end and text.  This
    holds for the list as a value, and for the method as it runs, mutating
    the segment objects in place: on its own output, and on its input a
    second time, it changes no object and returns the same list, whose
    values are those of the loop on values. *)
Theorem validate_segments_idempotent :
  (forall segments : list SubtitleSegment,
      validate_segments (validate_segments segments) = validate_segments segments)
  /\ (forall (h h1 : heap) (segments l1 : list nat),
         validate_segments_heap h segments [] = (h1, l1) ->
         validate_segments_heap h1 l1 [] = (h1, l1)
         /\ validate_segments_heap h1 segments [] = (h1, l1)
         /\ deref h1 l1 = validate_segments (deref h segments)).
Proof.
  split; [exact validate_values_idempotent |].
  intros h h1 segments l1 H.
  destruct (validate_heap_idempotent _ _ _ _ H) as [H1 H2].
  split; [exact H1 |]. split; [exact H2 |].
  now apply validate_heap_values in H.
Qed.

Lemma validate_segments_settled (segments : list SubtitleSegment) :
  Forall timing_ok segments ->
  validate_segments segments = filter nonblank segments.
Proof.
  induction 1 as [| segment rest Hs _ IH]; simpl.
  - reflexivity.
  - apply timing_ok_settled in Hs.
    rewrite (validate_segment_settled segment Hs), IH.
    destruct (nonblank segment); reflexivity.
Qed.

(** *** What the renderers do with blank texts *)

Lemma chosen_text_default (segment : SubtitleSegment) :
  chosen_text false segment = text segment.
Proof. unfold chosen_text. destruct (translation segment); reflexivity. Qed.

(** C2 (as stated) fails: the VTT renderer writes a segment that ends
    before it starts with the times it has, while its validated form ends
    one second after the start. *)
Lemma generate_vtt_renders_backwards_segment :
  generate_vtt [backwards] false
  = String.append "WEBVTT"
      (String.append nl (String.append nl
        (String.append "00:00:05.000 --> 00:00:03.000"
          (String.append nl (String.append "hi" (String.append nl nl))))))
  /\ generate_vtt (validate_segments [backwards]) false
     = String.append "WEBVTT"
         (String.append nl (String.append nl
           (String.append "00:00:05.000 --> 00:00:06.000"
             (String.append nl (String.append "hi" (String.append nl nl))))))
  /\ (forall srt_compose,
         render srt_compose [backwards] VTT
         <> render srt_compose (validate_segments [backwards]) VTT).
Proof.
  split; [vm_compute; reflexivity |]. split; [vm_compute; reflexivity |].
  intros srt_compose H. vm_compute in H. discriminate H.
Qed.

(** The time codes of 90.5 seconds. *)
Example format_vtt_time_90_5 : _format_vtt_time (181 # 2) = "00:01:30.500"%string.
Proof. vm_compute. reflexivity. Qed.

Example format_ass_time_90_5 : _format_ass_time (181 # 2) = "0:01:30.50"%string.
Proof. vm_compute. reflexivity. Qed.

(** A negative start is written with the hour it falls in. *)
Example format_vtt_time_negative :
  _format_vtt_time (- (1 # 2)) = "-1:59:59.500"%string.
Proof. vm_compute. reflexivity. Qed.

Example strip_spaces : Py.strip "  a b  " = "a b"%string.
Proof. reflexivity. Qed.

(** Two references to one segment object: the object is repaired once and
    listed twice. *)
Example validate_heap_aliased :
  validate_segments_heap [backwards] [0%nat; 0%nat] []
  = ([mkSubtitleSegment 1 5 (5 + 1) "hi" None], [0%nat; 0%nat]).
Proof. vm_compute. reflexivity. Qed.

End Serializer.

(** ** The pipeline *)

Section Orchestrator.

Import Pipeline Reconciler.

(** *** Configuration *)

(** C5 (as amended).  Construction resolves the multilingual settings:
    under [multilingual_detection] a source language left at "auto" becomes
    "multilingual", while a source language given explicitly is kept; and
    without a target language [preserve_original_languages] is forced to
    true.  So every constructed configuration with [multilingual_detection]
    and no target language has [preserve_original_languages]. *)
Theorem post_init_multilingual (default_cache : string) (raw : PipelineConfig) :
  let config := new_PipelineConfig default_cache raw in
  (multilingual_detection raw = true -> source_language raw = "auto"%string ->
   source_language config = "multilingual"%string)
  /\ (multilingual_detection raw = true -> source_language raw <> "auto"%string ->
      source_language config = source_language raw)
  /\ (multilingual_detection raw = false ->
      source_language config = source_language raw
      /\ preserve_original_languages config = preserve_original_languages raw)
  /\ (multilingual_detection raw = true -> Py.truthy (target_language raw) = false ->
      preserve_original_languages config = true)
  /\ multilingual_detection config = multilingual_detection raw
  /\ target_language config = target_language raw
  /\ (multilingual_detection config = true ->
      Py.truthy (target_language config) = false ->
      preserve_original_languages config = true).
Proof.
  unfold new_PipelineConfig, __post_init__. simpl.
  repeat split.
  - intros Hm Hs. rewrite Hm, Hs. reflexivity.
  - intros Hm Hs. rewrite Hm. apply String.eqb_neq in Hs. now rewrite Hs.
  - rewrite H. reflexivity.
  - rewrite H. reflexivity.
  - intros Hm Ht. rewrite Hm, Ht. reflexivity.
  - intros Hm Ht. rewrite Hm, Ht. reflexivity.
Qed.

(** C5 (as stated) fails in its first part: a configuration built with
    [source_language="en"] and [multilingual_detection=True] keeps "en". *)
Lemma post_init_keeps_explicit_source :
  source_language
    (new_PipelineConfig "/home/user/.cache/motherline"
       (mkConfig "fast" "en" None ["srt"%string] false false true false false
                 "silero" "auto" None None))
  = "en"%string.
Proof. reflexivity. Qed.

(** *** Translation *)

Lemma translate_segment_total (config : PipelineConfig) (tr : Translator)
      (detected : string) (segment : TranscriptionSegment) :
  exists segment', translate_segment config tr detected segment = Ok segment'.
Proof.
  unfold translate_segment.
  destruct (negb _).
  - destruct (tr _ _ _) as [t | e]; simpl;
      destruct (preserve_original_languages config); eexists; reflexivity.
  - destruct (preserve_original_languages config); eexists; reflexivity.
Qed.

Lemma translate_loop_total (config : PipelineConfig) (tr : Translator)
      (detected : string) (segs : list TranscriptionSegment) :
  exists segs',
    translate_loop config tr detected segs = Ok segs'
    /\ Forall2 (fun s s' => translate_segment config tr detected s = Ok s')
               segs segs'.
Proof.
  induction segs as [| segment rest (rest' & Hrest & Hall)]; simpl.
  - exists []. split; [reflexivity | constructor].
  - destruct (translate_segment_total config tr detected segment) as [s' Hs].
    exists (s' :: rest'). rewrite Hs. simpl. rewrite Hrest. simpl.
    split; [reflexivity | now constructor].
Qed.

(** C6.  The translation stage absorbs a translation failure: it returns
    for every translator, and for every segment whose source language
    differs from the target language and on whose text the translator
    raises, the segment of the result keeps the original text; under
    [preserve_original_languages] it is the segment with [translated_text]
    set to that text, and otherwise it is the segment as it was.  Without a
    translator the stage returns the transcription as it is. *)
Theorem translation_failure_absorbed (config : PipelineConfig) (tr : Translator)
        (transcription : TranscriptionResult) :
  (exists translated,
      _translate_segments config (Some tr) transcription = Ok translated
      /\ Forall2
           (fun segment segment' =>
              let source_lang :=
                if multilingual_detection config then language segment
                else detected_language transcription in
              forall e,
                Some source_lang <> target_language config ->
                tr (text segment) source_lang (target_language config) = Raise e ->
                text segment' = text segment
                /\ (preserve_original_languages config = true ->
                    translated_text segment' = Some (text segment)
                    /\ segment' = set_translated_text segment (text segment))
                /\ (preserve_original_languages config = false ->
                    segment' = segment))
           (segments transcription) (segments translated))
  /\ _translate_segments config None transcription = Ok transcription.
Proof.
  split; [| reflexivity].
  unfold _translate_segments.
  destruct (translate_loop_total config tr (detected_language transcription)
                                 (segments transcription)) as (segs' & Hloop & Hall).
  rewrite Hloop. simpl. eexists. split; [reflexivity |]. simpl.
  eapply Forall2_impl; [| exact Hall]. simpl.
  intros segment segment' Hs e Hdiff Hfail.
  unfold translate_segment in Hs.
  assert (E : option_string_eqb
                (Some (if multilingual_detection config then language segment
                       else detected_language transcription))
                (target_language config) = false).
  { destruct (target_language config) as [t |]; simpl; [| reflexivity].
    apply String.eqb_neq. intro Heq. apply Hdiff. now rewrite Heq. }
  rewrite E, Hfail in Hs. simpl in Hs.
  destruct (preserve_original_languages config); inversion Hs; subst;
    repeat split; intros; try discriminate; reflexivity.
Qed.

(** The stage on a translator that always fails, preserving the originals:
    the segment leaves with its text as [translated_text]. *)
Example translation_stage_on_failure :
  _translate_segments (config_with (Some "fr"%string) false false true false)
                      (Some failing_translator)
                      (mkTranscription [hello None] "en" 1 0 "tiny" false [])
  = Ok (mkTranscription [hello (Some "hello"%string)] "en" 1 0 "tiny" false []).
Proof. reflexivity. Qed.

(** *** Final text selection *)

Lemma append_assoc (a b c : string) :
  String.append (String.append a b) c = String.append a (String.append b c).
Proof. induction a as [| x a IH]; simpl; [reflexivity | now rewrite IH]. Qed.

Lemma labels_on_true (config : PipelineConfig) :
  add_language_labels config && multilingual_detection config = true
  <-> labels_on config.
Proof. unfold labels_on. apply andb_true_iff. Qed.

Lemma labels_on_false (config : PipelineConfig) :
  add_language_labels config && multilingual_detection config = false
  <-> ~ labels_on config.
Proof.
  rewrite <- labels_on_true. destruct (_ && _); split; intro H;
    try reflexivity; try discriminate; try (exfalso; now apply H).
Qed.

Lemma option_string_eqb_target (config : PipelineConfig)
      (segment : TranscriptionSegment) :
  option_string_eqb (Some (language segment)) (target_language config) = true
  <-> in_target_language config segment.
Proof.
  unfold in_target_language, option_string_eqb.
  destruct (target_language config) as [t |].
  - rewrite String.eqb_eq. split; intro H; [now subst | now inversion H].
  - split; discriminate.
Qed.

Lemma labelled_original_spec (config : PipelineConfig)
      (segment : TranscriptionSegment) :
  spec_original_text config segment (labelled_original config segment).
Proof.
  unfold labelled_original, language_label.
  destruct (_ && _) eqn:E.
  - apply labels_on_true in E.
    rewrite <- !append_assoc.
    replace (String.append (String.append (String.append "[" (Py.upper (language segment))) "] ")
                           (text segment))
      with (String.append "[" (String.append (Py.upper (language segment))
                                             (String.append "] " (text segment)))).
    + now apply original_labelled.
    + simpl. f_equal. now rewrite append_assoc.
  - apply labels_on_false in E. now apply original_plain.
Qed.

Lemma spec_original_text_unique (config : PipelineConfig)
      (segment : TranscriptionSegment) (o : string) :
  spec_original_text config segment o -> o = labelled_original config segment.
Proof.
  unfold labelled_original, language_label. intro H. destruct H as [Hon | Hoff].
  - apply labels_on_true in Hon. rewrite Hon. simpl. f_equal.
    now rewrite append_assoc.
  - apply labels_on_false in Hoff. now rewrite Hoff.
Qed.

Lemma labelled_translation_truthy (config : PipelineConfig)
      (segment : TranscriptionSegment) :
  Py.truthy (labelled_translation config segment)
  = Py.truthy (translated_text segment).
Proof.
  unfold labelled_translation, language_label.
  destruct (_ && _); [| reflexivity].
  destruct (translated_text segment) as [t |]; [| reflexivity].
  destruct (target_language config) as [target |]; [| reflexivity].
  destruct t; [reflexivity |]. destruct target; reflexivity.
Qed.

Lemma labelled_translation_spec (config : PipelineConfig)
      (segment : TranscriptionSegment) :
  translation_exists segment ->
  exists t, labelled_translation config segment = Some t
            /\ spec_translated_text config segment t.
Proof.
  unfold translation_exists, labelled_translation, language_label. intro Hex.
  destruct (translated_text segment) as [t0 |] eqn:Et; [| discriminate].
  destruct (_ && _) eqn:E.
  - apply labels_on_true in E.
    destruct (target_language config) as [target |] eqn:Etg.
    + rewrite Hex, andb_true_l.
      destruct (Py.truthy (Some target)) eqn:Etr.
      * eexists. split; [reflexivity |].
        replace (String.append (String.append "[" (String.append (Py.upper target) "] ")) t0)
          with (String.append "[" (String.append (Py.upper target)
                                                 (String.append "] " t0))).
        -- eapply translated_labelled; eassumption.
        -- simpl. f_equal. now rewrite append_assoc.
      * exists t0. split; [reflexivity |].
        apply translated_plain; [exact Et |]. rewrite Etg, Etr.
        intros [_ H]. discriminate H.
    + exists t0. split; [reflexivity |].
      apply translated_plain; [exact Et |]. rewrite Etg. simpl.
      intros [_ H]. discriminate H.
  - apply labels_on_false in E. exists t0. split; [reflexivity |].
    apply translated_plain; [exact Et |]. intros [H _]. now apply E.
Qed.

Lemma spec_translated_text_unique (config : PipelineConfig)
      (segment : TranscriptionSegment) (t : string) :
  translation_exists segment ->
  spec_translated_text config segment t ->
  labelled_translation config segment = Some t.
Proof.
  unfold translation_exists, labelled_translation, language_label.
  intros Hex H. destruct H as [t0 target Et Hon Etg Htr | t0 Et Hoff].
  - apply labels_on_true in Hon. rewrite Hon, Et, Etg.
    rewrite Et in Hex. rewrite Hex, Htr. simpl. do 2 f_equal.
    now rewrite append_assoc.
  - rewrite Et. destruct (_ && _) eqn:E; [| reflexivity].
    apply labels_on_true in E.
    destruct (target_language config) as [target |] eqn:Etg; [| reflexivity].
    destruct (Py.truthy (Some target)) eqn:Etr.
    + exfalso. apply Hoff. now split.
    + now rewrite andb_false_r.
Qed.

Lemma final_text_spec (config : PipelineConfig) (segment : TranscriptionSegment) :
  spec_final_text config segment (final_text config segment).
Proof.
  unfold final_text.
  pose proof (labelled_original_spec config segment) as Ho.
  pose proof (labelled_translation_truthy config segment) as Htr.
  destruct (Py.truthy (translated_text segment)) eqn:Eex.
  - destruct (labelled_translation_spec config segment Eex) as (t & Et & Hspec).
    rewrite Et in *. rewrite Htr. rewrite !andb_true_r.
    destruct (bilingual_subtitles config) eqn:Eb.
    + now apply final_bilingual.
    + assert (Hnb : ~ (bilingual_subtitles config = true
                       /\ translation_exists segment))
        by (rewrite Eb; intros [H _]; discriminate H).
      destruct (preserve_original_languages config) eqn:Ep.
      * destruct (option_string_eqb _ _) eqn:El.
        -- apply option_string_eqb_target in El.
           apply final_preserve_original; assumption.
        -- apply final_preserve_translated; try assumption.
           intro H. apply option_string_eqb_target in H. congruence.
      * apply final_plain; try assumption.
        rewrite Ep. intros [H _]. discriminate H.
  - assert (Hne : ~ translation_exists segment)
      by (unfold translation_exists; congruence).
    assert (H : match labelled_translation config segment with
                | Some t =>
                    if bilingual_subtitles config
                       && Py.truthy (labelled_translation config segment)
                    then String.append (labelled_original config segment)
                                       (String.append Generator.nl t)
                    else if preserve_original_languages config
                            && Py.truthy (labelled_translation config segment)
                         then if option_string_eqb (Some (language segment))
                                                   (target_language config)
                              then labelled_original config segment
                              else t
                         else labelled_original config segment
                | None => labelled_original config segment
                end = labelled_original config segment).
    { rewrite Htr. rewrite !andb_false_r.
      destruct (labelled_translation config segment); reflexivity. }
    rewrite H.
    apply final_plain; try assumption; intros [_ H']; now apply Hne.
Qed.

Lemma final_text_unique (config : PipelineConfig) (segment : TranscriptionSegment)
      (shown : string) :
  spec_final_text config segment shown -> shown = final_text config segment.
Proof.
  intro H. unfold final_text.
  pose proof (labelled_translation_truthy config segment) as Htr.
  destruct H as [o t Hb Hex Ho Ht | o Hnb Hp Hex Hin Ho
                 | t Hnb Hp Hex Hnin Ht | o Hnb Hnp Ho].
  - apply spec_original_text_unique in Ho.
    apply (spec_translated_text_unique _ _ _ Hex) in Ht.
    rewrite Ht in *. rewrite Htr, Hb, Hex. simpl. now subst o.
  - apply spec_original_text_unique in Ho.
    destruct (labelled_translation_spec config segment Hex) as (t & Et & _).
    rewrite Et in *. rewrite Htr, Hex, Hp. rewrite !andb_true_r.
    destruct (bilingual_subtitles config); [exfalso; apply Hnb; now split |].
    apply option_string_eqb_target in Hin. now rewrite Hin.
  - apply (spec_translated_text_unique _ _ _ Hex) in Ht.
    rewrite Ht in *. rewrite Htr, Hex, Hp. rewrite !andb_true_r.
    destruct (bilingual_subtitles config); [exfalso; apply Hnb; now split |].
    destruct (option_string_eqb _ _) eqn:El; [| reflexivity].
    apply option_string_eqb_target in El. contradiction.
  - apply spec_original_text_unique in Ho. subst o.
    destruct (labelled_translation config segment) as [t |]; [| reflexivity].
    rewrite Htr.
    destruct (Py.truthy (translated_text segment)) eqn:Eex.
    + rewrite !andb_true_r.
      destruct (bilingual_subtitles config); [exfalso; apply Hnb; now split |].
      destruct (preserve_original_languages config);
        [exfalso; apply Hnp; now split | reflexivity].
    + now rewrite !andb_false_r.
Qed.

(** The text selected for a segment, before the display segment is
    constructed, is the one the priority chain selects, and no other:
    labels first (the original text, and the
    translated text when it exists and a target language is set), then the
    bilingual pair, else the preserve-original choice by language, else the
    original text.  In particular "hello" with the translation "bonjour"
    gives "hello", a newline, "bonjour" under [bilingual_subtitles] without
    labels, and outside the bilingual case a segment in the target language
    shows its (possibly labelled) original text, not the translation. *)
Theorem final_text_priority_chain (config : PipelineConfig)
        (segment : TranscriptionSegment) :
  spec_final_text config segment (final_text config segment)
  /\ (forall shown, spec_final_text config segment shown ->
                    shown = final_text config segment)
  /\ (forall target multilingual preserve,
         final_text (config_with target true multilingual preserve false)
                    (hello (Some "bonjour"%string))
         = String.append "hello" (String.append Generator.nl "bonjour"))
  /\ (bilingual_subtitles config = false ->
      preserve_original_languages config = true ->
      in_target_language config segment ->
      final_text config segment = labelled_original config segment).
Proof.
  split; [apply final_text_spec |].
  split; [apply final_text_unique |].
  split.
  - intros target multilingual preserve. reflexivity.
  - intros Hb Hp Hin. unfold final_text. rewrite Hb, Hp.
    apply option_string_eqb_target in Hin. rewrite Hin. simpl.
    destruct (labelled_translation config segment); [| reflexivity].
    destruct (Py.truthy _); reflexivity.
Qed.

(** The keywords [id] and [translated_text] name no field of the
    [SubtitleSegment] dataclass of the serializer: for a transcript that is
    not empty the construction of the display segments raises [TypeError]
    after the text has been selected. *)
Lemma create_subtitle_segments_raises (config : PipelineConfig)
      (segment : TranscriptionSegment) (rest : list TranscriptionSegment) :
  _create_subtitle_segments config (segment :: rest)
  = Raise (Py.unexpected_keyword "SubtitleSegment.__init__" "id").
Proof. reflexivity. Qed.

(** C4 (the code misses the claim).  For "hello" with the translation
    "bonjour" under [bilingual_subtitles], [_create_subtitle_segments]
    selects the text "hello", a newline, "bonjour", as the priority chain
    says, and then raises [TypeError] where it constructs the display
    segment: the text is never yielded.  The same happens for every
    transcript that is not empty; only the empty transcript gives a
    result, the empty list. *)
Theorem create_subtitle_segments_never_yields :
  final_text (config_with (Some "fr"%string) true false true false)
             (hello (Some "bonjour"%string))
  = String.append "hello" (String.append Generator.nl "bonjour")
  /\ _create_subtitle_segments
       (config_with (Some "fr"%string) true false true false)
       [hello (Some "bonjour"%string)]
     = Raise (mkExn TypeError
                    "SubtitleSegment.__init__() got an unexpected keyword argument 'id'")
  /\ (forall config segment rest,
         exists e, _create_subtitle_segments config (segment :: rest) = Raise e
                   /\ exn_cls e = TypeError)
  /\ (forall config, _create_subtitle_segments config [] = Ok []).
Proof.
  split; [reflexivity |]. split; [reflexivity |]. split.
  - intros config segment rest. eexists. split; reflexivity.
  - reflexivity.
Qed.

(** *** Construction *)

Lemma vad_call_raises :
  Py.bind_call "VADSegmenter.__init__" VAD.VADSegmenter_signature
               VADSegmenter_call_keywords
  = Raise (Py.unexpected_keyword "VADSegmenter.__init__" "device").
Proof. reflexivity. Qed.

(** C10.  Constructing the pipeline raises [RuntimeError] for every
    configuration and whatever the collaborators do: the call
    [VADSegmenter(method=..., device=...)] names a parameter [device] that
    [VADSegmenter.__init__] does not have, so when the audio extractor has
    been built the call raises [TypeError], which [_initialize_components]
    catches and raises again as [RuntimeError]; when the audio extractor
    fails first, its exception is wrapped in the same way. *)
Theorem pipeline_construction_raises (env : Collaborators) (cfg : PipelineConfig) :
  (exists message,
      new_MotherLinePipeline env cfg = Raise (mkExn RuntimeError message))
  /\ (forall u, new_AudioExtractor env = Ok u ->
                new_MotherLinePipeline env cfg
                = Raise (mkExn RuntimeError
                    (String.append "Falha na inicialização do pipeline: "
                       (exn_msg (Py.unexpected_keyword "VADSegmenter.__init__"
                                                       "device")))))
  /\ (forall e, new_AudioExtractor env = Raise e ->
                new_MotherLinePipeline env cfg
                = Raise (mkExn RuntimeError
                    (String.append "Falha na inicialização do pipeline: "
                       (exn_msg e)))).
Proof.
  unfold new_MotherLinePipeline, _initialize_components.
  rewrite vad_call_raises.
  destruct (new_AudioExtractor env) as [u | e]; simpl.
  - split; [eexists; reflexivity |]. split; [reflexivity | discriminate].
  - split; [eexists; reflexivity |]. split; [discriminate |].
    intros e' H. now inversion H.
Qed.

(** *** Processing a file *)

(** C8.  [process_file] never raises: it returns a result for every input
    path, output directory and behaviour of the stages.  When the [try]
    block raises, the result has [success = False], the message of the
    exception as [error_message] and no output file; this is so for a
    missing input file, for a directory that cannot be created and for
    every exception that [_execute_pipeline] lets escape. *)
Theorem process_file_never_raises (run : Run) (input_file : string)
        (output_dir : option string) :
  (exists r, process_file run input_file output_dir = Ok r)
  /\ (forall e, process_file_try run input_file output_dir = Raise e ->
                exists r,
                  process_file run input_file output_dir = Ok r
                  /\ success r = false
                  /\ error_message r = Some (exn_msg e)
                  /\ output_files r = [])
  /\ (path_exists run input_file = false ->
      process_file run input_file output_dir
      = Ok (failure_result
              (String.append "Arquivo não encontrado: " input_file)
              (elapsed run)))
  /\ (forall e,
         path_exists run input_file = true ->
         mkdir run (match output_dir with
                    | None => parent_of run input_file
                    | Some d => d
                    end) = Ok tt ->
         _execute_pipeline run input_file
                           (match output_dir with
                            | None => parent_of run input_file
                            | Some d => d
                            end) = Raise e ->
         process_file run input_file output_dir
         = Ok (failure_result (exn_msg e) (elapsed run))).
Proof.
  unfold process_file. repeat split.
  - destruct (process_file_try run input_file output_dir);
      eexists; reflexivity.
  - intros e He. rewrite He. simpl. eexists. repeat split.
  - intro Hmissing. unfold process_file_try. rewrite Hmissing. reflexivity.
  - intros e Hthere Hdir Hrun. unfold process_file_try.
    rewrite Hthere. simpl. rewrite Hdir. simpl. rewrite Hrun. reflexivity.
Qed.

End Orchestrator.

(** ** More on the segmenter *)

Section SegmenterMore.

Import VAD Spans AudioSegments.

(** *** Construction *)

(** X1.  Construction succeeds exactly for the three method names, and
    raises [ValueError] for any other; the constructed segmenter is
    consistent (a Silero segmenter holds its model, a WebRTC one its
    detector) and keeps the numeric parameters it was given. *)
Theorem init_consistent (env : Env) (m : string) (a : Z) (min_d max_d : Q) (sr : Z) :
  (forall self, __init__ env m a min_d max_d sr = Ok self ->
                consistent env self
                /\ aggressiveness self = a /\ min_speech_duration self = min_d
                /\ max_speech_duration self = max_d /\ sample_rate self = sr)
  /\ ((m = "silero" \/ m = "webrtc" \/ m = "fixed")%string <->
      exists self, __init__ env m a min_d max_d sr = Ok self)
  /\ (~ (m = "silero" \/ m = "webrtc" \/ m = "fixed")%string <->
      exists e, __init__ env m a min_d max_d sr = Raise e
                /\ exn_cls e = ValueError).
Proof.
  unfold __init__, _init_vad, _init_webrtc_vad, consistent. simpl.
  destruct (String.eqb m "silero") eqn:Es;
    [apply String.eqb_eq in Es | apply String.eqb_neq in Es].
  - subst m. split; [| split].
    + intros self H.
      destruct (torch_hub_load env) as [model | e]; inversion H; subst; clear H.
      * simpl. repeat split; try discriminate; auto.
      * destruct (WEBRTCVAD_AVAILABLE env) eqn:Eav; simpl.
        -- destruct (webrtcvad_Vad env a) as [w | e']; simpl;
             repeat split; try discriminate; auto.
        -- repeat split; try discriminate; auto.
    + split; [intros _ | auto].
      destruct (torch_hub_load env); eexists; reflexivity.
    + split; [intro H; exfalso; apply H; auto |].
      intros (e & H & _). destruct (torch_hub_load env); discriminate.
  - destruct (String.eqb m "webrtc") eqn:Ew;
      [apply String.eqb_eq in Ew | apply String.eqb_neq in Ew].
    + subst m. split; [| split].
      * intros self H. inversion H; subst; clear H.
        destruct (WEBRTCVAD_AVAILABLE env) eqn:Eav; simpl.
        -- destruct (webrtcvad_Vad env a) as [w | e']; simpl;
             repeat split; try discriminate; auto.
        -- repeat split; try discriminate; auto.
      * split; [intros _; eexists; reflexivity | auto].
      * split; [intro H; exfalso; apply H; auto |].
        intros (e & H & _). discriminate.
    + destruct (String.eqb m "fixed") eqn:Ef;
        [apply String.eqb_eq in Ef | apply String.eqb_neq in Ef].
      * subst m. split; [| split].
        -- intros self H. inversion H; subst; clear H. simpl.
           repeat split; try discriminate; auto.
        -- split; [intros _; eexists; reflexivity | auto].
        -- split; [intro H; exfalso; apply H; auto |].
           intros (e & H & _). discriminate.
      * split; [| split].
        -- intros self H. discriminate.
        -- split; [intros [H | [H | H]]; contradiction |].
           intros (self & H). discriminate.
        -- split; [intros _; eexists; split; reflexivity |].
           intros _ [H | [H | H]]; contradiction.
Qed.

(** *** Durations *)

Lemma fixed_loop_bounded (fuel : nat) (D L : Q) :
  forall cur acc r,
    fixed_loop fuel D L cur acc = Done r ->
    exists t, r = acc ++ t /\ Forall (fun s => snd s <= fst s + L) t.
Proof.
  induction fuel as [| fuel IH]; intros cur acc r H; simpl in H.
  - discriminate.
  - destruct (Py.Qltb cur D).
    + apply IH in H. destruct H as (t & -> & Ft).
      exists ((cur, Py.min (cur + L) D) :: t). split.
      * now rewrite <- app_assoc.
      * constructor; [| exact Ft]. simpl. apply min_le_l.
    + inversion H; subst. exists []. split; [now rewrite app_nil_r | constructor].
Qed.



Lemma silero_loop_bounded (fuel : nat) (self : VADSegmenter) :
  forall raw segs r,
    Forall (Windows.bounded_by (max_speech_duration self)) segs ->
    silero_loop fuel self raw segs = Done r ->
    Forall (Windows.bounded_by (max_speech_duration self)) r.
Proof.
  induction raw as [| [s e] rest IH]; intros segs r Hsegs H; simpl in H.
  - inversion H; subst. exact Hsegs.
  - destruct (Qle_bool _ _); [| now apply (IH segs)].
    destruct (Py.Qltb (max_speech_duration self) (e - s)) eqn:El.
    + destruct (_split_long_segment fuel self s e) as [parts | |] eqn:Es;
        try discriminate.
      unfold _split_long_segment in Es. rewrite split_loop_fixed_loop in Es.
      apply fixed_loop_bounded in Es. destruct Es as (t & -> & Ft). simpl in H.
      apply (IH (segs ++ t)); [| exact H].
      apply Forall_app. split; [exact Hsegs |].
      eapply Forall_impl; [| exact Ft]. simpl. intros a Ha. now right.
    + apply Qltb_ge in El. apply (IH (segs ++ [(s, e)])); [| exact H].
      apply Forall_app. split; [exact Hsegs |].
      constructor; [now left | constructor].
Qed.

Lemma segment_fixed_bounded (fuel : nat) (self : VADSegmenter)
      (audio_data : list Q) (r : list span) :
  _segment_fixed fuel self audio_data = Done r ->
  Forall (fun s => snd s <= fst s + Py.min (max_speech_duration self) 10) r.
Proof.
  unfold _segment_fixed. destruct (true_div _ _); [| discriminate].
  intro H. apply fixed_loop_bounded in H. destruct H as (t & -> & Ft). exact Ft.
Qed.

(** X3.  The spans [segment_audio] returns through the Silero or the
    fixed-window strategy are bounded by [max_speech_duration] in the way
    the code tests it: a span of the model that is passed on satisfies the
    test [end - start <= max_speech_duration], and a part of a split span or
    a fixed window ends no later than the sum of its start and
    [max_speech_duration].  A fixed window ends no later than the sum of
    its start and [min(max_speech_duration, 10)]. *)
Theorem spans_bounded_by_max (env : Env) (fuel : nat) (self : VADSegmenter)
        (audio_data : list Q) (spans : list span) :
  method self <> "webrtc"%string ->
  segment_audio env fuel self audio_data = Done spans ->
  Forall (Windows.bounded_by (max_speech_duration self)) spans
  /\ (method self <> "silero"%string ->
      Forall (fun s => snd s <= fst s + Py.min (max_speech_duration self) 10)
             spans).
Proof.
  intros Hm H. unfold segment_audio in H.
  assert (Hfixed : forall r, _segment_fixed fuel self audio_data = Done r ->
                             Forall (Windows.bounded_by (max_speech_duration self)) r).
  { intros r Hr. apply segment_fixed_bounded in Hr.
    eapply Forall_impl; [| exact Hr]. simpl. intros s Hs. right.
    pose proof (min_le_l (max_speech_duration self) 10). lra. }
  destruct (String.eqb (method self) "silero") eqn:Es.
  - apply String.eqb_eq in Es. split; [| intro Hn; contradiction].
    unfold _segment_silero in H.
    destruct (call_vad_model self audio_data) as [raw | e];
      [| now apply Hfixed].
    destruct (silero_loop fuel self raw []) as [r | e |] eqn:El;
      [| now apply Hfixed | discriminate].
    inversion H; subst. apply (silero_loop_bounded fuel self raw [] spans);
      [constructor | exact El].
  - apply String.eqb_neq in Es.
    destruct (String.eqb (method self) "webrtc") eqn:Ew.
    + apply String.eqb_eq in Ew. contradiction.
    + split; [now apply Hfixed | intros _; now apply segment_fixed_bounded in H].
Qed.

Lemma spans_bounded_by_max_witness :
  Forall (Windows.bounded_by (max_speech_duration (Examples.fixed_with 10 16000)))
         [(0, 10); (10, 192000 # 16000)]
  /\ (method (Examples.fixed_with 10 16000) <> "silero"%string ->
      Forall (fun s => snd s
                       <= fst s
                          + Py.min (max_speech_duration (Examples.fixed_with 10 16000))
                                   10)
             [(0, 10); (10, 192000 # 16000)]).
Proof.
  apply (spans_bounded_by_max Examples.bare_env 3
           (Examples.fixed_with 10 16000) (Examples.silence 192000%Z)).
  - simpl. discriminate.
  - vm_compute. reflexivity.
Defined.

(** *** WebRTC frames: what the loop keeps *)

Lemma webrtc_loop_min (self : VADSegmenter) (vad : WebRtcVad) (a16 : list Z)
      (fs : nat) :
  forall starts segs cs segs' cs',
    Forall (fun s => min_speech_duration self <= span_length s) segs ->
    webrtc_loop self vad a16 fs starts segs cs = Ok (segs', cs') ->
    Forall (fun s => min_speech_duration self <= span_length s) segs'.
Proof.
  induction starts as [| i rest IH]; intros segs cs segs' cs' Hsegs H; simpl in H.
  - inversion H; subst. exact Hsegs.
  - destruct (vad (frame_at a16 i fs) (sample_rate self)) as [b | e];
      simpl in H; [| discriminate].
    destruct b, cs as [s |]; try (now apply (IH _ _ _ _ Hsegs H)).
    destruct (Qle_bool (min_speech_duration self)
                       (seconds_of i (sample_rate self) - s)) eqn:E.
    + apply Qle_bool_iff in E. apply (IH _ _ _ _) in H; [exact H |].
      apply Forall_app. split; [exact Hsegs |].
      constructor; [exact E | constructor].
    + now apply (IH _ _ _ _ Hsegs H).
Qed.

(** X4.  Every span the WebRTC frame loop returns is at least
    [min_speech_duration] long (shorter runs of speech frames are
    dropped). *)
Theorem webrtc_spans_not_shorter_than_min (self : VADSegmenter) (vad : WebRtcVad)
        (audio_data : list Q) (segs : list span) :
  webrtc_body self vad audio_data = Ok segs ->
  Forall (fun s => min_speech_duration self <= span_length s) segs.
Proof.
  unfold webrtc_body.
  destruct (Z.eqb _ 0); [discriminate |].
  match goal with
  | |- context [webrtc_loop ?a ?b ?c ?d ?e ?f ?g] =>
      destruct (webrtc_loop a b c d e f g) as [[segs' cs'] | e'] eqn:El
  end; simpl; [| discriminate].
  apply webrtc_loop_min in El; [| constructor].
  destruct cs' as [s |].
  - destruct (Qle_bool _ _) eqn:E; intro H; inversion H; subst; [| exact El].
    apply Qle_bool_iff in E. apply Forall_app. split; [exact El |].
    constructor; [exact E | constructor].
  - intro H. inversion H; subst. exact El.
Qed.

Lemma webrtc_spans_not_shorter_than_min_witness :
  Forall (fun s => min_speech_duration Examples.webrtc_segmenter <= span_length s)
         [(60 # 1000, 180 # 1000)].
Proof.
  apply (webrtc_spans_not_shorter_than_min Examples.webrtc_segmenter
           Examples.loud_frames Examples.burst).
  vm_compute. reflexivity.
Defined.

Lemma webrtc_loop_all_speech (self : VADSegmenter) (vad : WebRtcVad)
      (a16 : list Z) (fs : nat) :
  (forall frame sr, vad frame sr = Ok true) ->
  forall starts segs s,
    webrtc_loop self vad a16 fs starts segs (Some s) = Ok (segs, Some s).
Proof.
  intros Hvad. induction starts as [| i rest IH]; intros segs s; simpl.
  - reflexivity.
  - rewrite Hvad. simpl. apply IH.
Qed.

Lemma webrtc_loop_all_silence (self : VADSegmenter) (vad : WebRtcVad)
      (a16 : list Z) (fs : nat) :
  (forall frame sr, vad frame sr = Ok false) ->
  forall starts segs,
    webrtc_loop self vad a16 fs starts segs None = Ok (segs, None).
Proof.
  intros Hvad. induction starts as [| i rest IH]; intros segs; simpl.
  - reflexivity.
  - rewrite Hvad. simpl. apply IH.
Qed.

Lemma range_step_head (n step : nat) :
  (0 < n)%nat -> (0 < step)%nat ->
  exists rest, range_step n step = 0%nat :: rest.
Proof.
  intros Hn Hs. unfold range_step.
  assert (H : (1 <= (n + step - 1) / step)%nat).
  { apply Nat.div_le_lower_bound; lia. }
  destruct ((n + step - 1) / step)%nat as [| k]; [lia |].
  simpl. eexists. reflexivity.
Qed.

Lemma frame_size_pos (sr : Z) : (34 <= sr)%Z -> (0 < Z.quot (sr * 30) 1000)%Z.
Proof.
  intro H. apply Z.quot_str_pos. lia.
Qed.

(** X5.  The WebRTC strategy never splits: when the detector hears speech
    in every frame of a non-empty audio of duration [D], the result is the
    single span from 0 to [D], however [D] compares with
    [max_speech_duration] (or nothing, when [D] is shorter than
    [min_speech_duration]); when it hears speech in no frame, the result is
    empty. *)
Theorem webrtc_all_or_nothing (env : Env) (fuel : nat) (self : VADSegmenter)
        (vad : WebRtcVad) (audio_data : list Q) :
  method self = "webrtc"%string -> WEBRTCVAD_AVAILABLE env = true ->
  webrtc_vad self = Some vad -> (34 <= sample_rate self)%Z ->
  audio_data <> [] ->
  ((forall frame sr, vad frame sr = Ok true) ->
   segment_audio env fuel self audio_data
   = Done (if Qle_bool (min_speech_duration self)
                       (duration_of self audio_data
                        - seconds_of 0 (sample_rate self))
           then [(seconds_of 0 (sample_rate self), duration_of self audio_data)]
           else []))
  /\ ((forall frame sr, vad frame sr = Ok false) ->
      segment_audio env fuel self audio_data = Done []).
Proof.
  intros Hm Hav Hvad Hsr Hne.
  pose proof (frame_size_pos _ Hsr) as Hfs.
  assert (Hlen : (0 < List.length (map to_int16 audio_data))%nat).
  { rewrite length_map. destruct audio_data; [contradiction | simpl; lia]. }
  unfold segment_audio, _segment_webrtc, webrtc_body, duration_of.
  rewrite Hm, Hav, Hvad. simpl String.eqb. cbv iota.
  assert (E0 : Z.eqb (Z.quot (sample_rate self * 30) 1000) 0 = false)
    by (apply Z.eqb_neq; lia).
  assert (E1 : Z.ltb (Z.quot (sample_rate self * 30) 1000) 0 = false)
    by (apply Z.ltb_ge; lia).
  rewrite E0, E1.
  destruct (range_step_head (List.length (map to_int16 audio_data))
                            (Z.to_nat (Z.quot (sample_rate self * 30) 1000)))
    as [rest Hrest]; [exact Hlen | lia |].
  rewrite Hrest. split; intro Hall.
  - simpl. rewrite Hall. simpl. rewrite webrtc_loop_all_speech by exact Hall.
    simpl. rewrite length_map.
    destruct (Qle_bool _ _); reflexivity.
  - simpl. rewrite Hall. simpl. rewrite webrtc_loop_all_silence by exact Hall.
    reflexivity.
Qed.

Lemma silence_nonempty (n : Z) : (0 < n)%Z -> Examples.silence n <> [].
Proof.
  intro H. unfold Examples.silence.
  destruct (Z.to_nat n) eqn:E; [lia | discriminate].
Defined.

Lemma webrtc_all_or_nothing_witness :
  ((forall frame sr, always_speech frame sr = Ok true) ->
   segment_audio Examples.webrtc_env 1 (webrtc_with always_speech (1 # 2) 2 16000)
                 (Examples.silence 48000%Z)
   = Done (if Qle_bool (min_speech_duration (webrtc_with always_speech (1 # 2) 2 16000))
                       (duration_of (webrtc_with always_speech (1 # 2) 2 16000)
                                    (Examples.silence 48000%Z)
                        - seconds_of 0 (sample_rate (webrtc_with always_speech (1 # 2) 2 16000)))
           then [(seconds_of 0 (sample_rate (webrtc_with always_speech (1 # 2) 2 16000)),
                  duration_of (webrtc_with always_speech (1 # 2) 2 16000)
                              (Examples.silence 48000%Z))]
           else []))
  /\ ((forall frame sr, always_speech frame sr = Ok false) ->
      segment_audio Examples.webrtc_env 1 (webrtc_with always_speech (1 # 2) 2 16000)
                    (Examples.silence 48000%Z) = Done []).
Proof.
  apply (webrtc_all_or_nothing Examples.webrtc_env 1
           (webrtc_with always_speech (1 # 2) 2 16000) always_speech
           (Examples.silence 48000%Z)).
  - reflexivity.
  - reflexivity.
  - reflexivity.
  - vm_compute. discriminate.
  - apply silence_nonempty. reflexivity.
Defined.

(** Three seconds heard as speech throughout, with a maximum of two: one
    span of three seconds. *)
Example webrtc_three_seconds :
  segment_audio Examples.webrtc_env 1 (webrtc_with always_speech (1 # 2) 2 16000)
                (Examples.silence 48000%Z)
  = Done [(0 # 16000, 48000 # 16000)].
Proof. vm_compute. reflexivity. Qed.

(** *** Slices of the audio *)











End SegmenterMore.

(** ** More on the serializer *)

Section SerializerMore.

Import Generator Validity GeneratorMore.

(** *** Stripping *)

Lemma lstrip_head (s : string) :
  lstrip s = EmptyString
  \/ exists c r, lstrip s = String c r /\ Py.is_space c = false.
Proof.
  induction s as [| c s IH]; simpl.
  - now left.
  - destruct (Py.is_space c) eqn:E; [exact IH |].
    right. exists c, s. now split.
Qed.

Lemma rstrip_head (c : ascii) (r : string) :
  Py.is_space c = false ->
  exists r', rstrip (String c r) = String c r'.
Proof.
  intro H. simpl. destruct (rstrip r); rewrite ?H; eexists; reflexivity.
Qed.

Lemma rstrip_idempotent (s : string) : rstrip (rstrip s) = rstrip s.
Proof.
  induction s as [| c s IH]; simpl; [reflexivity |].
  destruct (rstrip s) as [| d r] eqn:E.
  - destruct (Py.is_space c) eqn:Ec; simpl; [reflexivity | now rewrite Ec].
  - remember (String d r) as t eqn:Et. simpl. rewrite IH. now subst t.
Qed.

Lemma strip_idempotent (s : string) : Py.strip (Py.strip s) = Py.strip s.
Proof.
  unfold Py.strip.
  destruct (lstrip_head s) as [E | (c & r & E & Hc)]; rewrite E.
  - reflexivity.
  - destruct (rstrip_head c r Hc) as [r' Er]. rewrite Er.
    simpl lstrip. rewrite Hc. rewrite <- Er. apply rstrip_idempotent.
Qed.

(** *** Building segments from a transcription *)

Lemma create_from_spec (translation_results : option (list string)) :
  forall segs i,
    List.length (create_from i segs translation_results) = List.length segs
    /\ map index (create_from i segs translation_results)
       = map (fun k => (Z.of_nat k + 1)%Z) (seq i (List.length segs))
    /\ Forall (fun s => Py.strip (text s) = text s)
              (create_from i segs translation_results)
    /\ (forall k seg,
           nth_error segs k = Some seg ->
           nth_error (create_from i segs translation_results) k
           = Some (create_one (i + k) seg translation_results)).
Proof.
  induction segs as [| seg rest IH]; intro i; simpl.
  - repeat split; try constructor. intros [| k] seg H; discriminate.
  - destruct (IH (S i)) as (Hlen & Hidx & Hstrip & Hnth).
    repeat split.
    + now rewrite Hlen.
    + now rewrite Hidx.
    + constructor; [apply strip_idempotent | exact Hstrip].
    + intros [| k] seg' H; simpl in *.
      * inversion H; subst. now rewrite Nat.add_0_r.
      * rewrite (Hnth k seg' H). f_equal. f_equal. lia.
Qed.

(** X7.  [create_subtitle_segments] returns one segment per transcription
    segment, in order.  The k-th (from 0) has index k+1; its text is the
    text of the transcription segment (its [str] when it has no text),
    stripped of surrounding white space; its start is that of the
    transcription segment, or 0 when it has none; its end is that of the
    transcription segment, or three seconds after the start when it has
    none; its translation is the k-th translation result when there is
    one, and [None] otherwise. *)
Theorem create_subtitle_segments_numbered (segs : list Transcribed)
        (translation_results : option (list string)) :
  List.length (create_subtitle_segments segs translation_results) = List.length segs
  /\ (forall k seg,
         nth_error segs k = Some seg ->
         nth_error (create_subtitle_segments segs translation_results) k
         = Some (subtitle_of k seg translation_results)).
Proof.
  unfold create_subtitle_segments.
  destruct (create_from_spec translation_results segs 0) as (Hlen & _ & _ & Hnth).
  split; [exact Hlen |].
  intros k seg H. rewrite (Hnth k seg H). simpl.
  unfold create_one, subtitle_of. f_equal. f_equal.
  destruct translation_results as [[| r results] |]; try reflexivity.
  now destruct k.
Qed.

(** *** What validation establishes *)

Lemma validate_segment_repair (segment : SubtitleSegment) :
  validate_segment segment
  = (if nonblank segment then repair segment else fst (validate_segment segment),
     nonblank segment).
Proof.
  destruct segment as [i s e t tr].
  unfold validate_segment, nonblank, repair, set_start, set_end. simpl.
  destruct (Py.Qltb s 0); simpl;
    match goal with
    | |- context [Qle_bool ?a ?b] => destruct (Qle_bool a b)
    end; simpl;
    destruct (Py.blank t); simpl; try reflexivity;
    match goal with
    | |- context [Py.Qltb ?a ?b] => destruct (Py.Qltb a b)
    end; reflexivity.
Qed.

Lemma repair_repaired (segment : SubtitleSegment) : repaired (repair segment).
Proof.
  unfold repaired, repair. simpl.
  set (s0 := if Py.Qltb (start segment) 0 then 0 else start segment).
  assert (H0 : 0 <= s0).
  { subst s0. destruct (Py.Qltb (start segment) 0) eqn:E; [apply Qle_refl |].
    now apply Qltb_ge in E. }
  split; [exact H0 |].
  destruct (Qle_bool (end_ segment) s0) eqn:E1.
  - destruct (Py.Qltb max_duration (s0 + 1 - s0)) eqn:E2.
    + split; right; [right |]; reflexivity.
    + apply Qltb_ge in E2. split; [right; left; reflexivity | now left].
  - apply Qle_bool_false in E1.
    destruct (Py.Qltb max_duration (end_ segment - s0)) eqn:E2.
    + split; right; [right |]; reflexivity.
    + apply Qltb_ge in E2. split; now left.
Qed.

(** X8.  Validation returns, in order, exactly the segments whose text is
    not blank, each with its index, text and translation untouched and its
    times repaired as the loop does it: a negative start becomes 0, an end
    that is not after the start becomes [start + 1], and an end with
    [end - start > 10] becomes [start + 10].  So every segment it returns
    has a start that is not negative, and either passes the test
    [end - start <= 10] or ends at the sum [start + 10]. *)
Theorem validate_segments_establishes (segments : list SubtitleSegment) :
  validate_segments segments = map repair (filter nonblank segments)
  /\ Forall repaired (validate_segments segments)
  /\ map identity_of (validate_segments segments)
     = map identity_of (filter nonblank segments).
Proof.
  assert (H : validate_segments segments = map repair (filter nonblank segments)).
  { induction segments as [| segment rest IH]; simpl; [reflexivity |].
    rewrite validate_segment_repair, IH.
    destruct (nonblank segment); reflexivity. }
  rewrite H. split; [reflexivity |]. split.
  - apply Forall_forall. intros s Hs. apply in_map_iff in Hs.
    destruct Hs as (x & <- & _). apply repair_repaired.
  - rewrite map_map. apply map_ext. intro s. reflexivity.
Qed.

(** *** The translation track *)

Lemma chosen_text_untranslated (segment : SubtitleSegment) (b : bool) :
  untranslated segment -> chosen_text b segment = text segment.
Proof.
  unfold untranslated, chosen_text. intro H.
  destruct (translation segment) as [t |]; [| reflexivity].
  rewrite H. now rewrite andb_false_r.
Qed.

Lemma vtt_body_untranslated (segments : list SubtitleSegment) :
  Forall untranslated segments ->
  forall acc, vtt_body segments true acc = vtt_body segments false acc.
Proof.
  induction 1 as [| segment rest Hs _ IH]; intro acc; simpl; [reflexivity |].
  rewrite !(chosen_text_untranslated segment _ Hs).
  destruct (Py.blank (text segment)); apply IH.
Qed.

Lemma ass_body_untranslated (segments : list SubtitleSegment) :
  Forall untranslated segments ->
  forall acc, ass_body segments true acc = ass_body segments false acc.
Proof.
  induction 1 as [| segment rest Hs _ IH]; intro acc; simpl; [reflexivity |].
  rewrite !(chosen_text_untranslated segment _ Hs).
  destruct (Py.blank (text segment)); apply IH.
Qed.

Lemma srt_subtitles_untranslated (segments : list SubtitleSegment) :
  Forall untranslated segments ->
  srt_subtitles segments true = srt_subtitles segments false.
Proof.
  induction 1 as [| segment rest Hs _ IH]; simpl; [reflexivity |].
  rewrite !(chosen_text_untranslated segment _ Hs).
  destruct (Py.blank (text segment)); now rewrite IH.
Qed.

Lemma has_translation_line_untranslated (segment : SubtitleSegment) :
  untranslated segment -> has_translation_line segment = false.
Proof.
  unfold untranslated, has_translation_line. intro H.
  destruct (translation segment); [now rewrite H | reflexivity].
Qed.

Lemma bilingual_untranslated (segments : list SubtitleSegment) :
  Forall untranslated segments ->
  bilingual_subtitles_of segments = srt_subtitles segments false.
Proof.
  induction 1 as [| segment rest Hs _ IH]; simpl; [reflexivity |].
  rewrite (chosen_text_untranslated segment _ Hs).
  rewrite (has_translation_line_untranslated segment Hs).
  destruct (Py.blank (text segment)); [exact IH |].
  simpl. now rewrite IH.
Qed.

(** X9.  When no segment carries a translation ([None] or empty), asking a
    renderer for the translation track gives the same file as the default
    call, in every format, and the bilingual SRT is the plain SRT. *)
Theorem translation_track_falls_back (srt_compose : list Subtitle -> string)
        (segments : list SubtitleSegment) (f : format) :
  Forall untranslated segments ->
  render_as srt_compose segments f true = render srt_compose segments f
  /\ generate_bilingual_srt srt_compose segments
     = render srt_compose segments SRT.
Proof.
  intro H. split.
  - destruct f; simpl.
    + unfold generate_srt. now rewrite srt_subtitles_untranslated.
    + now apply vtt_body_untranslated.
    + now apply ass_body_untranslated.
  - simpl. unfold generate_bilingual_srt, generate_srt.
    now rewrite bilingual_untranslated.
Qed.

Lemma translation_track_falls_back_witness :
  render_as (fun _ => EmptyString) [well_timed; backwards] VTT true
  = render (fun _ => EmptyString) [well_timed; backwards] VTT
  /\ generate_bilingual_srt (fun _ => EmptyString) [well_timed; backwards]
     = render (fun _ => EmptyString) [well_timed; backwards] SRT.
Proof.
  apply (translation_track_falls_back (fun _ => EmptyString)
           [well_timed; backwards] VTT).
  repeat constructor.
Defined.

(** X10.  The bilingual SRT has one cue per segment whose text is not
    blank, as the plain SRT has, with the index, start and end of the
    segment; the content of the plain cue is the stripped text, and the
    content of the bilingual cue is the stripped text, followed by a
    newline and the stripped translation exactly when the segment has a
    translation that is not blank. *)
Theorem bilingual_extends_plain (segments : list SubtitleSegment) :
  bilingual_subtitles_of segments = map bilingual_cue (filter nonblank segments)
  /\ srt_subtitles segments false = map plain_cue (filter nonblank segments).
Proof.
  unfold nonblank.
  induction segments as [| segment rest [IH1 IH2]]; simpl; [now split |].
  rewrite chosen_text_default.
  destruct (Py.blank (text segment)); simpl; [now split |].
  rewrite IH1, IH2. split; [| reflexivity].
  f_equal. unfold bilingual_cue, has_translation_line. f_equal.
  destruct (translation segment) as [t |]; [| reflexivity].
  destruct t as [| c t]; [reflexivity |].
  simpl Py.truthy. rewrite andb_true_l.
  destruct (Py.blank (String c t)); reflexivity.
Qed.

(** *** The shape of the files *)

Lemma vtt_body_closed (b : bool) (segments : list SubtitleSegment) :
  forall acc,
    vtt_body segments b acc
    = String.append acc (concat_all (map (vtt_cue b) (filter (written b) segments))).
Proof.
  induction segments as [| segment rest IH]; intro acc.
  - simpl. clear. induction acc as [| c acc IH]; simpl; [reflexivity | now rewrite <- IH].
  - change (vtt_body (segment :: rest) b acc)
      with (if Py.blank (chosen_text b segment) then vtt_body rest b acc
            else vtt_body rest b (String.append acc (vtt_cue b segment))).
    cbn [filter]. unfold written at 1.
    destruct (Py.blank (chosen_text b segment)); cbn [negb map concat_all];
      [apply IH |].
    rewrite IH. apply append_assoc.
Qed.

Lemma ass_body_closed (b : bool) (segments : list SubtitleSegment) :
  forall acc,
    ass_body segments b acc
    = String.append acc (concat_all (map (ass_event b) (filter (written b) segments))).
Proof.
  induction segments as [| segment rest IH]; intro acc.
  - simpl. clear. induction acc as [| c acc IH]; simpl; [reflexivity | now rewrite <- IH].
  - change (ass_body (segment :: rest) b acc)
      with (if Py.blank (chosen_text b segment) then ass_body rest b acc
            else ass_body rest b (String.append acc (ass_event b segment))).
    cbn [filter]. unfold written at 1.
    destruct (Py.blank (chosen_text b segment)); cbn [negb map concat_all];
      [apply IH |].
    rewrite IH. apply append_assoc.
Qed.

(** X11.  A VTT file is the header [WEBVTT] and an empty line, then one cue
    per segment whose chosen text is not blank, in the order of the list
    (the renderer neither sorts nor merges); an ASS file is the fixed
    script header, then one [Dialogue] line per such segment, in order.
    So the file of a list cut in two is the file of the first part followed
    by the cues of the second. *)
Theorem files_are_header_and_cues (b : bool) (segments more : list SubtitleSegment) :
  generate_vtt segments b
  = String.append (String.append "WEBVTT" (String.append nl nl))
      (concat_all (map (vtt_cue b) (filter (written b) segments)))
  /\ generate_ass segments b
     = String.append ass_header
         (concat_all (map (ass_event b) (filter (written b) segments)))
  /\ generate_vtt (segments ++ more) b
     = String.append (generate_vtt segments b)
         (concat_all (map (vtt_cue b) (filter (written b) more)))
  /\ generate_ass (segments ++ more) b
     = String.append (generate_ass segments b)
         (concat_all (map (ass_event b) (filter (written b) more))).
Proof.
  assert (Hcat : forall l1 l2, concat_all (l1 ++ l2)
                               = String.append (concat_all l1) (concat_all l2)).
  { induction l1 as [| s l1 IH]; intro l2; simpl; [reflexivity |].
    now rewrite IH, append_assoc. }
  unfold generate_vtt, generate_ass. rewrite !vtt_body_closed, !ass_body_closed.
  repeat split; try reflexivity.
  - rewrite filter_app, map_app, Hcat. now rewrite !append_assoc.
  - rewrite filter_app, map_app, Hcat. now rewrite !append_assoc.
Qed.

(** *** Rendering and validation *)

Lemma srt_subtitles_closed (b : bool) (segments : list SubtitleSegment) :
  srt_subtitles segments b = map (srt_cue b) (filter (written b) segments).
Proof.
  induction segments as [| segment rest IH]; simpl; [reflexivity |].
  unfold written at 1.
  destruct (Py.blank (chosen_text b segment)); simpl; [exact IH |].
  now rewrite IH.
Qed.

Lemma written_after_nonblank (b : bool) (segments : list SubtitleSegment) :
  Forall (text_decides b) segments ->
  filter (written b) (filter nonblank segments) = filter (written b) segments.
Proof.
  induction 1 as [| segment rest Hs _ IH]; simpl; [reflexivity |].
  unfold nonblank at 1. destruct (Py.blank (text segment)) eqn:E; simpl.
  - unfold written at 2. rewrite (Hs E). simpl. exact IH.
  - now rewrite IH.
Qed.

Lemma text_decides_default (segments : list SubtitleSegment) :
  Forall (text_decides false) segments.
Proof.
  apply Forall_forall. intros s _. unfold text_decides.
  now rewrite chosen_text_default.
Qed.

(** C2 (as amended).  No renderer runs [validate_segments] or repairs a
    time: whatever the times of the segments are, a renderer skips the
    segments whose chosen text is blank; the VTT and ASS renderers write
    one cue per other segment with the start and end the segment has, and
    the SRT renderer hands one subtitle per other segment, with the start
    and end the segment has (as [timedelta] values), to [srt.compose].  Rendering a list and
    rendering its validated form give the same file when the times of the
    list are valid already ([0 <= start < end], [end - start <= 10]) and no
    segment has a blank text with a chosen text that is not blank, which
    no segment has with the default [use_translation=False]. *)
Theorem render_validate_well_timed (srt_compose : list Subtitle -> string)
        (segments : list SubtitleSegment) (f : format) (use_translation : bool) :
  (Forall timing_ok segments ->
   Forall (text_decides use_translation) segments ->
   render_as srt_compose segments f use_translation
   = render_as srt_compose (validate_segments segments) f use_translation)
  /\ (Forall timing_ok segments ->
      render srt_compose segments f
      = render srt_compose (validate_segments segments) f)
  /\ generate_vtt segments use_translation
     = String.append (String.append "WEBVTT" (String.append nl nl))
         (concat_all (map (vtt_cue use_translation)
                          (filter (written use_translation) segments)))
  /\ generate_ass segments use_translation
     = String.append ass_header
         (concat_all (map (ass_event use_translation)
                          (filter (written use_translation) segments)))
  /\ generate_srt srt_compose segments use_translation
     = srt_compose (map (srt_cue use_translation)
                        (filter (written use_translation) segments)).
Proof.
  assert (Hvtt : forall b l, generate_vtt l b
                  = String.append (String.append "WEBVTT" (String.append nl nl))
                      (concat_all (map (vtt_cue b) (filter (written b) l)))).
  { intros b l. unfold generate_vtt. apply vtt_body_closed. }
  assert (Hass : forall b l, generate_ass l b
                  = String.append ass_header
                      (concat_all (map (ass_event b) (filter (written b) l)))).
  { intros b l. unfold generate_ass. apply ass_body_closed. }
  assert (Hsrt : forall b l, generate_srt srt_compose l b
                  = srt_compose (map (srt_cue b) (filter (written b) l))).
  { intros b l. unfold generate_srt. now rewrite srt_subtitles_closed. }
  assert (Heq : forall b,
             Forall timing_ok segments -> Forall (text_decides b) segments ->
             render_as srt_compose segments f b
             = render_as srt_compose (validate_segments segments) f b).
  { intros b Ht Hd. rewrite (validate_segments_settled segments Ht).
    destruct f; simpl; rewrite ?Hsrt, ?Hvtt, ?Hass;
      now rewrite (written_after_nonblank b segments Hd). }
  split; [apply Heq |]. split.
  - intro Ht. specialize (Heq false Ht (text_decides_default segments)).
    destruct f; exact Heq.
  - repeat split; [apply Hvtt | apply Hass | apply Hsrt].
Qed.

(** A list with valid times: its validated form renders to the same VTT
    file, cue for cue. *)
Example render_validate_well_timed_example :
  generate_vtt (validate_segments [well_timed]) false
  = generate_vtt [well_timed] false
  /\ generate_vtt [well_timed] false
     = String.append "WEBVTT"
         (String.append nl (String.append nl
           (String.append "00:00:01.000 --> 00:00:03.000"
             (String.append nl (String.append "hi" (String.append nl nl)))))).
Proof. split; vm_compute; reflexivity. Qed.

(** *** Time codes *)

Lemma floordiv_spec (x m : Q) :
  0 < m ->
  inject_Z (floordiv x m) * m <= x /\ x < (inject_Z (floordiv x m) + 1) * m.
Proof.
  intro Hm. unfold floordiv.
  pose proof (Qfloor_le (x / m)) as Hlo.
  pose proof (Qlt_floor (x / m)) as Hhi.
  rewrite inject_Z_plus in Hhi. change (inject_Z 1) with 1 in Hhi.
  assert (Hx : x / m * m == x) by (field; lra).
  split.
  - apply (Qmult_le_compat_r _ _ m) in Hlo; lra.
  - apply (Qmult_lt_compat_r _ _ m) in Hhi; lra.
Qed.

Lemma Qfloor_between (x : Q) (z : Z) :
  inject_Z z <= x -> x < inject_Z (z + 1) -> Qfloor x = z.
Proof.
  intros Hlo Hhi.
  pose proof (Qfloor_le x) as Flo. pose proof (Qlt_floor x) as Fhi.
  assert (H1 : (z < Qfloor x + 1)%Z) by (rewrite Zlt_Qlt; lra).
  assert (H2 : (Qfloor x < z + 1)%Z) by (rewrite Zlt_Qlt; lra).
  lia.
Qed.

Lemma pymod_range (x m : Q) : 0 < m -> 0 <= pymod x m /\ pymod x m < m.
Proof.
  intro Hm. unfold pymod. destruct (floordiv_spec x m Hm) as [Hlo Hhi].
  split; lra.
Qed.

Lemma floordiv_minutes (seconds : Q) :
  floordiv seconds 60
  = (60 * floordiv seconds 3600 + floordiv (pymod seconds 3600) 60)%Z.
Proof.
  assert (H60 : (0 : Q) < 60) by reflexivity.
  assert (H3600 : (0 : Q) < 3600) by reflexivity.
  pose proof (floordiv_spec (pymod seconds 3600) 60 H60) as [M0 M1].
  unfold pymod in *.
  remember (floordiv seconds 3600) as h eqn:Eh.
  remember (floordiv (seconds - 3600 * inject_Z h) 60) as m eqn:Em.
  clear Eh Em. unfold floordiv. apply Qfloor_between.
  - rewrite inject_Z_plus, inject_Z_mult. change (inject_Z 60) with 60.
    apply Qle_shift_div_l; [exact H60 |]. lra.
  - rewrite !inject_Z_plus, inject_Z_mult.
    change (inject_Z 60) with 60. change (inject_Z 1) with 1.
    apply Qlt_shift_div_r; [exact H60 |]. lra.
Qed.

(** X12.  The fields of a time code, for a number of seconds from 0 up to
    [2^53] (the range in which a float holds every whole number): the hours
    are not negative, the minutes lie between 0 and 59, the seconds in
    [[0, 60)], and hours, minutes and seconds add up to the input; the VTT
    and ASS codes print these three fields. *)
Theorem time_code_fields (seconds : Q) :
  0 <= seconds -> seconds < 9007199254740992 ->
  let hours := floordiv seconds 3600 in
  let minutes := floordiv (pymod seconds 3600) 60 in
  let secs := pymod seconds 60 in
  (0 <= hours)%Z
  /\ (0 <= minutes <= 59)%Z
  /\ 0 <= secs /\ secs < 60
  /\ inject_Z hours * 3600 + inject_Z minutes * 60 + secs == seconds
  /\ _format_vtt_time seconds
     = String.append (format_d 2 hours)
         (String.append ":" (String.append (format_d 2 minutes)
           (String.append ":" (format_f 6 3 secs))))
  /\ _format_ass_time seconds
     = String.append (format_d 1 hours)
         (String.append ":" (String.append (format_d 2 minutes)
           (String.append ":" (format_f 5 2 secs)))).
Proof.
  intros Hpos _ hours minutes secs.
  assert (H3600 : (0 : Q) < 3600) by reflexivity.
  assert (H60 : (0 : Q) < 60) by reflexivity.
  destruct (pymod_range seconds 3600 H3600) as [R0 R1].
  destruct (floordiv_spec (pymod seconds 3600) 60 H60) as [M0 M1].
  destruct (pymod_range seconds 60 H60) as [S0 S1].
  destruct (floordiv_spec seconds 3600 H3600) as [_ Hh1].
  pose proof (floordiv_minutes seconds) as Hq.
  assert (Hh0 : (0 <= floordiv seconds 3600)%Z).
  { apply Z.lt_succ_r. rewrite Zlt_Qlt. unfold Z.succ.
    rewrite inject_Z_plus. change (inject_Z 0) with 0. change (inject_Z 1) with 1.
    apply (Qmult_lt_r _ _ 3600 H3600). lra. }
  assert (Hm0 : (0 <= floordiv (pymod seconds 3600) 60)%Z).
  { apply Z.lt_succ_r. rewrite Zlt_Qlt. unfold Z.succ.
    rewrite inject_Z_plus. change (inject_Z 0) with 0. change (inject_Z 1) with 1.
    apply (Qmult_lt_r _ _ 60 H60). lra. }
  assert (Hm59 : (floordiv (pymod seconds 3600) 60 <= 59)%Z).
  { apply Z.lt_succ_r. rewrite Zlt_Qlt.
    change (inject_Z (Z.succ 59)) with 60.
    apply (Qmult_lt_r _ _ 60 H60). lra. }
  subst hours minutes secs.
  split; [exact Hh0 |].
  split; [split; assumption |]. split; [exact S0 |]. split; [exact S1 |].
  split; [| split; reflexivity].
  unfold pymod at 2. rewrite Hq.
  rewrite inject_Z_plus, inject_Z_mult. change (inject_Z 60) with 60. ring.
Qed.

Lemma time_code_fields_witness :
  (0 <= floordiv (3725 + (1 # 2)) 3600)%Z
  /\ (0 <= floordiv (pymod (3725 + (1 # 2)) 3600) 60 <= 59)%Z
  /\ 0 <= pymod (3725 + (1 # 2)) 60 /\ pymod (3725 + (1 # 2)) 60 < 60
  /\ inject_Z (floordiv (3725 + (1 # 2)) 3600) * 3600
     + inject_Z (floordiv (pymod (3725 + (1 # 2)) 3600) 60) * 60
     + pymod (3725 + (1 # 2)) 60 == 3725 + (1 # 2)
  /\ _format_vtt_time (3725 + (1 # 2)) = "01:02:05.500"%string
  /\ _format_ass_time (3725 + (1 # 2)) = "1:02:05.50"%string.
Proof.
  apply (time_code_fields (3725 + (1 # 2))); vm_compute; first [reflexivity | discriminate].
Defined.

Lemma round_half_even_up (x : Q) (f : Z) :
  inject_Z f + (1 # 2) < x -> x < inject_Z (f + 1) -> round_half_even x = (f + 1)%Z.
Proof.
  intros Hlo Hhi. unfold round_half_even.
  assert (Hf : Qfloor x = f) by (apply Qfloor_between; [lra | exact Hhi]).
  rewrite Hf.
  destruct (Py.Qltb (x - inject_Z f) (1 # 2)) eqn:E1.
  - apply Qltb_lt in E1. lra.
  - destruct (Py.Qltb (1 # 2) (x - inject_Z f)) eqn:E2; [reflexivity |].
    apply Qltb_ge in E2. lra.
Qed.

(** X13.  The seconds field is rounded on its own and never carried into
    the minutes: when the seconds within the minute exceed 59.9995 the VTT
    time code ends in [:60.000] and the ASS time code in [:60.00], with
    the hours and minutes of the unrounded time. *)
Theorem seconds_field_not_carried (seconds : Q) :
  (119999 # 2000) < pymod seconds 60 ->
  _format_vtt_time seconds
  = String.append (format_d 2 (floordiv seconds 3600))
      (String.append ":"
        (String.append (format_d 2 (floordiv (pymod seconds 3600) 60)) ":60.000"))
  /\ _format_ass_time seconds
     = String.append (format_d 1 (floordiv seconds 3600))
         (String.append ":"
           (String.append (format_d 2 (floordiv (pymod seconds 3600) 60)) ":60.00")).
Proof.
  intro Hhi.
  assert (H60 : (0 : Q) < 60) by reflexivity.
  destruct (pymod_range seconds 60 H60) as [_ Hlt].
  unfold _format_vtt_time, _format_ass_time.
  remember (pymod seconds 60) as secs eqn:Es. clear Es.
  assert (Hv : format_f 6 3 secs = "60.000"%string).
  { unfold format_f.
    change (10 ^ Z.of_nat 3)%Z with 1000%Z. change (inject_Z 1000) with 1000.
    rewrite (round_half_even_up (secs * 1000) 59999).
    - reflexivity.
    - change (inject_Z 59999) with 59999. lra.
    - change (inject_Z (59999 + 1)) with 60000. lra. }
  assert (Ha : format_f 5 2 secs = "60.00"%string).
  { unfold format_f.
    change (10 ^ Z.of_nat 2)%Z with 100%Z. change (inject_Z 100) with 100.
    rewrite (round_half_even_up (secs * 100) 5999).
    - reflexivity.
    - change (inject_Z 5999) with 5999. lra.
    - change (inject_Z (5999 + 1)) with 6000. lra. }
  cbv zeta. rewrite Hv, Ha. split; reflexivity.
Qed.

Lemma seconds_field_not_carried_witness :
  _format_vtt_time (3599 + (9999 # 10000)) = "00:59:60.000"%string
  /\ _format_ass_time (3599 + (9999 # 10000)) = "0:59:60.00"%string.
Proof.
  apply (seconds_field_not_carried (3599 + (9999 # 10000))). reflexivity.
Defined.

End SerializerMore.

(** ** The stages of the orchestrator *)

Section StagesProofs.

Import Py Pipeline Stages.

(** *** Translation *)



(** *** The configuration *)

(** X15.  [__post_init__] normalises a configuration once and for all:
    running it again on its own result changes nothing.  Its result has a
    cache directory, has the mode, target language, formats and the other
    flags of the raw configuration, and [preserve_original_languages]
    is never switched off. *)
Theorem post_init_idempotent (default_cache : string) (raw : PipelineConfig) :
  let config := __post_init__ default_cache raw in
  __post_init__ default_cache config = config
  /\ cache_dir config <> None
  /\ (preserve_original_languages raw = true ->
      preserve_original_languages config = true)
  /\ (mode config, target_language config, output_formats config,
      embed_subtitles config, bilingual_subtitles config,
      multilingual_detection config, add_language_labels config,
      vad_method config, device config, cpu_threads config)
     = (mode raw, target_language raw, output_formats raw,
        embed_subtitles raw, bilingual_subtitles raw,
        multilingual_detection raw, add_language_labels raw,
        vad_method raw, device raw, cpu_threads raw).
Proof.
  cbv zeta. destruct raw as [m src tgt fmts emb bil multi pres lab vad dev thr cache].
  unfold __post_init__. simpl. split; [| split; [| split]].
  - f_equal.
    + destruct multi; [| reflexivity].
      destruct (String.eqb src "auto") eqn:E; [reflexivity | now rewrite E].
    + destruct multi; [| reflexivity].
      destruct (negb (truthy tgt)); reflexivity.
    + now destruct cache.
  - now destruct cache.
  - intro Hp. subst pres. destruct multi; [| reflexivity].
    now destruct (negb (truthy tgt)).
  - reflexivity.
Qed.

(** *** The command line *)

Lemma construction_raises (env : Collaborators) (cfg : PipelineConfig) :
  exists e, new_MotherLinePipeline env cfg = Raise e.
Proof.
  unfold new_MotherLinePipeline, _initialize_components.
  rewrite vad_call_raises.
  destruct (new_AudioExtractor env); simpl; eexists; reflexivity.
Qed.

(** X16.  Every configuration the command line hands to the pipeline is
    coherent: bilingual subtitles come with a target language, preserved
    languages and language labels come with multilingual detection, a
    multilingual configuration never has the source language [auto] and
    preserves the original languages when it has no target language, there
    is at least one output format, and the cache directory is set. *)
Theorem cli_config_coherent (default_cache : string) (a : CLI.Args)
        (config : PipelineConfig) :
  CLI.checked_config default_cache a = Some config -> CLI.coherent config.
Proof.
  unfold CLI.checked_config.
  destruct (negb (truthy (CLI.input_file a))); [discriminate |].
  destruct (CLI.bilingual a && negb (truthy (CLI.target_lang a))) eqn:Eb;
    [discriminate |].
  destruct (CLI.preserve_languages a && negb (CLI.multilingual a)) eqn:Ep;
    [discriminate |].
  destruct (CLI.language_labels a && negb (CLI.multilingual a)) eqn:El;
    [discriminate |].
  intro H. inversion H. subst config. clear H.
  unfold CLI.coherent, new_PipelineConfig, __post_init__. simpl.
  destruct (CLI.multilingual a) eqn:Em; simpl in *.
  - rewrite andb_false_r in Ep, El. repeat split; try reflexivity.
    + intro Hb. rewrite Hb in Eb. simpl in Eb. now apply negb_false_iff in Eb.
    + intros _. destruct (String.eqb (CLI.source_lang a) "auto") eqn:E.
      * simpl. discriminate.
      * rewrite E. now apply String.eqb_neq.
    + intros _ Ht. now rewrite Ht.
    + destruct (CLI.arg_output_formats a); discriminate.
    + discriminate.
  - rewrite andb_true_r in Ep, El. repeat split; try discriminate.
    + intro Hb. rewrite Hb in Eb. simpl in Eb. now apply negb_false_iff in Eb.
    + intro Hp. congruence.
    + intro Hl. congruence.
    + destruct (CLI.arg_output_formats a); discriminate.
Qed.

Lemma cli_config_coherent_witness :
  CLI.coherent
    (new_PipelineConfig "/home/user/.cache/motherline"
       (mkConfig "fast" "multilingual" None ["srt"%string] false false true false
                 true "silero" "auto" None None)).
Proof.
  apply (cli_config_coherent "/home/user/.cache/motherline"
           (CLI.command_line "talk.mp4" None true)).
  reflexivity.
Defined.

(** X17.  Once [click] has parsed and accepted the command line and
    calls the function [main], a call without [--info] never returns: it
    leaves through [sys.exit(1)], whatever the arguments, the
    collaborators and the file are.  The checks of the function exit with
    status 1 on incoherent arguments; past them the construction of the
    pipeline raises, and the handler of the [try] block exits with status
    1.  (What [click] does before the call, a usage error or [--help], is
    not part of the function.) *)
Theorem cli_exits_with_failure (env : Collaborators)
        (run : MotherLinePipeline -> Run) (show_system_info : result unit)
        (default_cache : string) (a : CLI.Args) :
  CLI.info a = false ->
  CLI.main env run show_system_info default_cache a = CLI.Exited 1.
Proof.
  intro Hinfo. unfold CLI.main. rewrite Hinfo.
  destruct (CLI.checked_config default_cache a) as [config |]; [| reflexivity].
  destruct (construction_raises env config) as [e He]. now rewrite He.
Qed.

Lemma cli_exits_with_failure_witness :
  CLI.main (mkCollaborators Examples.bare_env (Ok tt) (fun _ _ _ => Ok tt)
                            (Ok (fun text _ _ => Ok text)))
           (fun _ => run_with working_extractor (fun _ => true)
                              (fun _ => "."%string) (fun _ => Ok tt) [] 0)
           (Ok tt) "/home/user/.cache/motherline"
           (CLI.command_line "talk.mp4" (Some "en"%string) false)
  = CLI.Exited 1.
Proof.
  apply cli_exits_with_failure. reflexivity.
Defined.

(** *** Running the stages *)

Lemma code_points_app (a b : string) :
  code_points (String.append a b) = (code_points a + code_points b)%nat.
Proof.
  induction a as [| c a IH]; simpl; [reflexivity |].
  destruct (continuation c); simpl; now rewrite IH.
Qed.

Lemma unpack_path_raises (name : string) :
  unpack_pair (String.append name ".wav")
  = Raise (mkExn ValueError "too many values to unpack (expected 2)").
Proof.
  unfold unpack_pair. rewrite code_points_app.
  change (code_points ".wav") with 4%nat.
  replace (code_points name + 4)%nat with (S (S (S (S (code_points name))))) by lia.
  reflexivity.
Qed.

Lemma execute_pipeline_raises (x : Extractor) (input_path output_path : string) :
  exists e, _execute_pipeline x input_path output_path = Raise e.
Proof.
  unfold _execute_pipeline, extract_audio.
  destruct (negb (input_exists x input_path)); [eexists; reflexivity |].
  destruct (ffmpeg_run x input_path _) as [u | e]; simpl.
  - rewrite unpack_path_raises. eexists. reflexivity.
  - destruct (is_ffmpeg_error e); eexists; reflexivity.
Qed.

(** X18.  [_execute_pipeline] raises on every input: [extract_audio]
    returns the path of the extracted audio, a [str] that ends in [.wav],
    and the stage unpacks it into two names, which raises [ValueError]
    when the extraction itself has not raised before.  So [process_file]
    reports a failure for every file, with no output file, whatever the
    file system and FFmpeg do. *)
Theorem process_file_always_fails (x : Extractor) (input_file : string) :
  (forall output_path,
      exists e, _execute_pipeline x input_file output_path = Raise e)
  /\ (forall output_path,
         input_exists x input_file = true ->
         ffmpeg_run x input_file (String.append (mktemp x) ".wav") = Ok tt ->
         _execute_pipeline x input_file output_path
         = Raise (mkExn ValueError "too many values to unpack (expected 2)"))
  /\ (forall exists_ parent mkdir_ stats elapsed_ output_dir,
         exists r,
           process_file (run_with x exists_ parent mkdir_ stats elapsed_)
                        input_file output_dir = Ok r
           /\ success r = false
           /\ output_files r = []
           /\ error_message r <> None).
Proof.
  split; [intro; apply execute_pipeline_raises |]. split.
  - intros output_path Hex Hrun. unfold _execute_pipeline, extract_audio.
    rewrite Hex. simpl. rewrite Hrun. simpl. now rewrite unpack_path_raises.
  - intros exists_ parent mkdir_ stats elapsed_ output_dir.
    unfold process_file, process_file_try, run_with. simpl.
    destruct (negb (exists_ input_file)); simpl.
    + eexists. repeat split. discriminate.
    + destruct (mkdir_ _) as [u | e]; simpl.
      * destruct (execute_pipeline_raises x input_file
                    (match output_dir with
                     | Some d => d
                     | None => parent input_file
                     end)) as [e He].
        rewrite He. simpl. eexists. repeat split. discriminate.
      * eexists. repeat split. discriminate.
Qed.

(** *** Writing the files *)

Section Files.

Variable disk : Disk.
Variable srt_compose : list Generator.Subtitle -> string.
Variable segments : list Generator.SubtitleSegment.
Variables output_path base_name : string.

Let file := file_of disk output_path base_name.
Let ok := written_ok disk srt_compose segments output_path base_name.
Let turn := generate_one disk srt_compose segments output_path base_name.

Lemma known_format_name (f : Generator.format) : known_format (name_of f) = Some f.
Proof. now destruct f. Qed.

Lemma turn_known (f : Generator.format) (acc : list string) (v : option string) :
  turn (acc, v) (name_of f)
  = (acc ++ (if ok f then [file f] else []), Some (file f)).
Proof.
  unfold turn, generate_one, ok, written_ok, file. rewrite known_format_name.
  destruct (write_text disk _ _); [reflexivity | now rewrite app_nil_r].
Qed.

Lemma fold_known (fs : list Generator.format) :
  forall acc v,
    fold_left turn (map name_of fs) (acc, v)
    = (acc ++ map file (filter ok fs),
       match rev fs with f :: _ => Some (file f) | [] => v end).
Proof.
  induction fs as [| f fs IH]; intros acc v.
  - simpl. now rewrite app_nil_r.
  - cbn [map fold_left filter rev]. rewrite turn_known, IH.
    rewrite <- app_assoc. f_equal.
    + destruct (ok f); reflexivity.
    + destruct (rev fs) as [| g l] eqn:E; reflexivity.
Qed.

(** X19.  With formats among [srt], [vtt] and [ass] and no multilingual
    detection, [_generate_subtitle_files] never raises and returns, in the
    order of the formats, the files of exactly the formats whose renderer
    succeeded: a format that fails is left out and does not stop the
    others. *)
Theorem subtitle_files_isolate_failures (config : PipelineConfig)
        (fs : list Generator.format) :
  output_formats config = map name_of fs ->
  multilingual_detection config = false ->
  _generate_subtitle_files disk srt_compose config segments base_name output_path
  = Ok (map file (filter ok fs)).
Proof.
  intros Hf Hm. unfold _generate_subtitle_files. rewrite Hf, Hm.
  fold turn. now rewrite fold_known.
Qed.

(** X20.  A format that is none of the three is not rejected.  After
    other formats, the file of the format before it is listed a second
    time, also when that file could not be written; with no format before
    it, nothing is listed for it (the [UnboundLocalError] of the turn is
    caught). *)
Theorem unknown_format_repeats_previous (config : PipelineConfig)
        (fs : list Generator.format) (unknown : string) :
  known_format unknown = None ->
  output_formats config = map name_of fs ++ [unknown] ->
  multilingual_detection config = false ->
  _generate_subtitle_files disk srt_compose config segments base_name output_path
  = Ok (map file (filter ok fs)
          ++ match rev fs with f :: _ => [file f] | [] => [] end).
Proof.
  intros Hu Hf Hm. unfold _generate_subtitle_files. rewrite Hf, Hm.
  fold turn. rewrite fold_left_app, fold_known. cbn [fold_left].
  unfold turn, generate_one. rewrite Hu.
  destruct (rev fs); simpl; [now rewrite app_nil_r | reflexivity].
Qed.

(** X21.  With multilingual detection and at least one segment,
    [_generate_subtitle_files] raises [AttributeError] after the subtitle
    files are written, whatever the formats are: the metadata reads
    [seg.id], which a [SubtitleSegment] does not have.  With no segment it
    lists the metadata file last, provided the file can be written. *)
Theorem metadata_raises_on_segments (config : PipelineConfig) :
  multilingual_detection config = true ->
  (segments <> [] ->
   _generate_subtitle_files disk srt_compose config segments base_name output_path
   = Raise (mkExn AttributeError "'SubtitleSegment' object has no attribute 'id'"))
  /\ (segments = [] ->
      forall u,
        write_text disk
          (join disk output_path (String.append base_name "_metadata.json"))
          (empty_metadata config) = Ok u ->
        exists files,
          _generate_subtitle_files disk srt_compose config segments base_name
                                   output_path
          = Ok (files
                  ++ [join disk output_path
                           (String.append base_name "_metadata.json")])).
Proof.
  intro Hm. unfold _generate_subtitle_files. rewrite Hm. split.
  - intro Hne. destruct segments; [contradiction | reflexivity].
  - intros He u Hw. unfold _generate_metadata_file.
    destruct segments; [| discriminate]. rewrite Hw. simpl.
    eexists. reflexivity.
Qed.

End Files.

Lemma subtitle_files_isolate_failures_witness :
  _generate_subtitle_files vtt_refusing_disk (fun _ => EmptyString)
    (config_for ["srt"; "vtt"; "ass"]%string false) [one_line] "talk" "out"
  = Ok ["out/talk.srt"; "out/talk.ass"]%string.
Proof.
  apply (subtitle_files_isolate_failures vtt_refusing_disk (fun _ => EmptyString)
           [one_line] "out" "talk"
           (config_for ["srt"; "vtt"; "ass"]%string false)
           [Generator.SRT; Generator.VTT; Generator.ASS]);
    reflexivity.
Defined.

Lemma unknown_format_repeats_previous_witness :
  _generate_subtitle_files vtt_refusing_disk (fun _ => EmptyString)
    (config_for ["vtt"; "txt"]%string false) [one_line] "talk" "out"
  = Ok ["out/talk.vtt"]%string.
Proof.
  apply (unknown_format_repeats_previous vtt_refusing_disk (fun _ => EmptyString)
           [one_line] "out" "talk"
           (config_for ["vtt"; "txt"]%string false) [Generator.VTT] "txt");
    reflexivity.
Defined.

Lemma metadata_raises_on_segments_witness :
  _generate_subtitle_files vtt_refusing_disk (fun _ => EmptyString)
    (config_for ["srt"]%string true) [one_line] "talk" "out"
  = Raise (mkExn AttributeError "'SubtitleSegment' object has no attribute 'id'").
Proof.
  apply (metadata_raises_on_segments vtt_refusing_disk (fun _ => EmptyString)
           [one_line] "out" "talk" (config_for ["srt"]%string true));
    [reflexivity | discriminate].
Defined.

End StagesProofs.

(** ** The recognition engine *)

Section Recognition.

Import Py Pipeline Whisper.

Lemma transcribe_audio_result (loading : result WhisperModel) (self : WhisperEngine)
      (audio_data : list Q) (sample_rate : Z) (language : option string)
      (multilingual_mode : bool) :
  exists message,
    fst (transcribe_audio loading self audio_data sample_rate language
                          multilingual_mode)
    = Raise (mkExn RuntimeError (String.append "Falha na transcrição: " message)).
Proof.
  unfold transcribe_audio. cbn [fst].
  destruct (model (snd (load_model loading self))) as [m |].
  - destruct (model_transcribe m audio_data _) as [[segments info] | e]; simpl;
      eexists; reflexivity.
  - simpl. eexists. reflexivity.
Qed.

(** X22.  [transcribe_audio] raises [RuntimeError] on every input and
    never returns a transcription.  When the model cannot be loaded or its
    [transcribe] raises, the exception is wrapped; when the model answers,
    the method reads the clock through a name the module never imports,
    and the [NameError] is wrapped in the same way. *)
Theorem transcribe_audio_always_raises (loading : result WhisperModel)
        (self : WhisperEngine) (audio_data : list Q) (sample_rate : Z)
        (language : option string) (multilingual_mode : bool) :
  (exists message,
      fst (transcribe_audio loading self audio_data sample_rate language
                            multilingual_mode)
      = Raise (mkExn RuntimeError
                     (String.append "Falha na transcrição: " message)))
  /\ (forall m,
         model (snd (load_model loading self)) = Some m ->
         (forall lang, exists answer, model_transcribe m audio_data lang = Ok answer) ->
         fst (transcribe_audio loading self audio_data sample_rate language
                               multilingual_mode)
         = Raise (mkExn RuntimeError
                        "Falha na transcrição: name 'time' is not defined")).
Proof.
  split; [apply transcribe_audio_result |].
  intros m Hm Ha. unfold transcribe_audio. cbn [fst]. rewrite Hm.
  match goal with
  | |- context [model_transcribe m audio_data ?lang] =>
      destruct (Ha lang) as [[segments info] Hanswer]; rewrite Hanswer
  end.
  reflexivity.
Qed.

Lemma transcribe_each_placeholders (loading : nat -> result WhisperModel)
      (language : option string) (audio_segments : list (list Q * Q * Q)) :
  forall self i,
    fst (transcribe_each loading self i audio_segments language)
    = placeholders i audio_segments.
Proof.
  induction audio_segments as [| [[audio_data start_time] end_time] rest IH];
    intros self i; [reflexivity |].
  cbn [transcribe_each placeholders].
  destruct (transcribe_audio_result (loading i) self audio_data 16000 language false)
    as [message Hr].
  destruct (transcribe_audio (loading i) self audio_data 16000 language false)
    as [r self1].
  cbn [fst] in Hr. subst r.
  specialize (IH self1 (S i)).
  destruct (transcribe_each loading self1 (S i) rest language) as [more self2].
  cbn [fst] in IH |- *. now rewrite IH.
Qed.

(** X23.  [transcribe_segments] returns one segment per piece of audio,
    in order, and every one of them is the placeholder of a failed piece:
    the [k]-th has id [k], the start and end of the piece, the text
    [[Erro na transcrição]], the language [unknown] and confidence 0.  No
    text of the model reaches the result. *)
Theorem transcribe_segments_placeholders (first_loading : result WhisperModel)
        (loading : nat -> result WhisperModel) (self : WhisperEngine)
        (audio_segments : list (list Q * Q * Q)) (language : option string) :
  let result :=
    fst (transcribe_segments first_loading loading self audio_segments language) in
  result = placeholders 0 audio_segments
  /\ List.length result = List.length audio_segments
  /\ (forall k piece,
         nth_error audio_segments k = Some piece ->
         nth_error result k
         = Some (mkSegment (Z.of_nat k + 1) (snd (fst piece)) (snd piece)
                           "[Erro na transcrição]" 0 "unknown" 0 None)).
Proof.
  cbv zeta. unfold transcribe_segments. rewrite transcribe_each_placeholders.
  split; [reflexivity |]. split.
  - generalize 0%nat as i. induction audio_segments as [| p l IH]; intro i; simpl;
      [reflexivity | now rewrite IH].
  - assert (Hnth : forall l i k piece,
               nth_error l k = Some piece ->
               nth_error (placeholders i l) k
               = Some (placeholder (i + k) (snd (fst piece)) (snd piece))).
    { induction l as [| p l IH]; intros j k piece Hk; [now destruct k |].
      destruct k as [| k]; simpl in *.
      - inversion Hk. subst. now rewrite Nat.add_0_r.
      - rewrite (IH (S j) k piece Hk). now rewrite Nat.add_succ_r. }
    intros k piece Hk. now rewrite (Hnth _ 0%nat k piece Hk).
Qed.

(** X24.  The number of threads the engine picks is at least 1 and, on a
    machine with two physical cores or more, leaves one core free; below
    4 GiB of memory it is at most 2 and below 8 GiB at most 4.  The pick
    fails only when the number of physical cores is unknown. *)
Theorem optimal_threads_bounds (cpu_count : option Z) (memory_total : Z) :
  (forall n, cpu_count = Some n ->
             exists threads,
               _get_optimal_threads cpu_count memory_total = Ok threads
               /\ (1 <= threads)%Z
               /\ (2 <= n -> threads <= n - 1)%Z
               /\ (memory_total < 4 * 1024 ^ 3 -> threads <= 2)%Z
               /\ (memory_total < 8 * 1024 ^ 3 -> threads <= 4)%Z)
  /\ (cpu_count = None ->
      exists e, _get_optimal_threads cpu_count memory_total = Raise e
                /\ exn_cls e = TypeError).
Proof.
  split.
  - intros n Hn. subst cpu_count. unfold _get_optimal_threads.
    assert (Hgb : forall k : Z,
               (0 < k)%Z ->
               Qltb (inject_Z memory_total / inject_Z (1024 ^ 3)) (inject_Z k) = true
               <-> (memory_total < k * 1024 ^ 3)%Z).
    { intros k Hk. rewrite Qltb_lt.
      assert (Hpos : 0 < inject_Z (1024 ^ 3)) by reflexivity.
      split; intro H.
      - apply (Qmult_lt_r _ _ _ Hpos) in H.
        assert (E : inject_Z memory_total / inject_Z (1024 ^ 3) * inject_Z (1024 ^ 3)
                    == inject_Z memory_total) by (field; discriminate).
        rewrite E, <- inject_Z_mult, <- Zlt_Qlt in H. exact H.
      - apply Qlt_shift_div_r; [exact Hpos |].
        rewrite <- inject_Z_mult, <- Zlt_Qlt. exact H. }
    pose proof (Hgb 4%Z eq_refl) as H4. pose proof (Hgb 8%Z eq_refl) as H8.
    change (inject_Z 4) with 4 in H4. change (inject_Z 8) with 8 in H8.
    destruct (Qltb (inject_Z memory_total / inject_Z (1024 ^ 3)) 4) eqn:E4.
    + eexists. split; [reflexivity |]. lia.
    + assert (N4 : ~ (memory_total < 4 * 1024 ^ 3)%Z)
        by (intro H; apply H4 in H; discriminate).
      destruct (Qltb (inject_Z memory_total / inject_Z (1024 ^ 3)) 8) eqn:E8.
      * eexists. split; [reflexivity |]. lia.
      * assert (N8 : ~ (memory_total < 8 * 1024 ^ 3)%Z)
          by (intro H; apply H8 in H; discriminate).
        eexists. split; [reflexivity |]. lia.
  - intro Hn. subst cpu_count. eexists. split; reflexivity.
Qed.

(** A loaded model that answers still yields a placeholder. *)
Example transcribe_segments_ready :
  fst (transcribe_segments (Ok ready_model) (fun _ => Ok ready_model) ready_engine
                           [([0; 0], 5, 7)] None)
  = [mkSegment 1 5 7 "[Erro na transcrição]" 0 "unknown" 0 None].
Proof. reflexivity. Qed.

End Recognition.

(** ** The translator *)

Section TranslatorProofs.

Import Py Translation.

Lemma ensure_package_spec (argos : Argos) (self : MotherLineTranslator)
      (from_code to_code : string) :
  let out := _ensure_translation_package argos self from_code to_code in
  auto_download (snd out) = auto_download self
  /\ incl (installed_packages self) (installed_packages (snd out))
  /\ (auto_download self = false ->
      snd out = self /\ fst out = installed self (package_key from_code to_code)).
Proof.
  cbv zeta. unfold _ensure_translation_package.
  destruct (installed self (package_key from_code to_code)) eqn:Ei; simpl.
  - repeat split; auto using incl_refl.
  - destruct (auto_download self) eqn:Ea; simpl.
    + destruct (get_available_packages argos) as [available | e]; simpl.
      * destruct (find _ available) as [p |]; simpl.
        -- destruct (install argos (fst p) (snd p)); simpl;
             repeat split; auto using incl_refl, incl_tl; discriminate.
        -- repeat split; auto using incl_refl; discriminate.
      * repeat split; auto using incl_refl; discriminate.
    + repeat split; auto using incl_refl.
Qed.

Lemma leg_spec (argos : Argos) (self : MotherLineTranslator)
      (text from_code to_code other : string) :
  let out := leg argos self text from_code to_code other in
  auto_download (snd out) = auto_download self
  /\ incl (installed_packages self) (installed_packages (snd out))
  /\ (auto_download self = false -> snd out = self)
  /\ (auto_download self = false -> installed_packages self = [] ->
      String.eqb other "en" = false -> exists e, fst out = Raise e).
Proof.
  cbv zeta. unfold leg.
  destruct (String.eqb other "en") eqn:E; simpl.
  - repeat split; auto using incl_refl. discriminate.
  - pose proof (ensure_package_spec argos self from_code to_code) as H.
    cbv zeta in H.
    destruct (_ensure_translation_package argos self from_code to_code)
      as [ok self'].
    simpl in H. destruct H as (Ha & Hi & Hoff).
    destruct ok; simpl; repeat split; auto.
    + intro Hd. now destruct (Hoff Hd).
    + intros Hd Hnil _. destruct (Hoff Hd) as [_ Hok].
      unfold installed in Hok. rewrite Hnil in Hok. discriminate.
    + intro Hd. now destruct (Hoff Hd).
    + intros. eexists. reflexivity.
Qed.

Lemma via_english_dependable (argos : Argos) (self : MotherLineTranslator)
      (text source_lang target_lang : string) :
  dependable text self (_translate_via_english argos self text source_lang target_lang).
Proof.
  unfold _translate_via_english.
  pose proof (leg_spec argos self text source_lang "en" source_lang) as H1.
  cbv zeta in H1.
  destruct (leg argos self text source_lang "en" source_lang) as [[english | e] self1];
    simpl in H1; destruct H1 as (A1 & I1 & _).
  - pose proof (leg_spec argos self1 english "en" target_lang target_lang) as H2.
    cbv zeta in H2.
    destruct (leg argos self1 english "en" target_lang target_lang)
      as [[final | e] self2];
      simpl in H2; destruct H2 as (A2 & I2 & _); unfold dependable; simpl.
    + repeat split; [auto | | congruence | eauto using incl_tran].
      intros [H | H]; discriminate.
    + repeat split; [auto | congruence | eauto using incl_tran].
  - unfold dependable. simpl. repeat split; auto.
Qed.

(** X25.  [translate_text] hands the given text back as [original_text];
    the confidence of its result is 0, 0.6, 0.8 or 1, and a result with
    confidence 0 (blank text, no package, a failed translation) or 1 (same
    language) carries the text itself as its translation.  A call never
    removes an installed package nor changes the download switch. *)
Theorem translate_text_dependable (argos : Argos) (self : MotherLineTranslator)
        (text source_lang target_lang : string) :
  dependable text self (translate_text argos self text source_lang target_lang).
Proof.
  unfold translate_text.
  destruct (blank text).
  { unfold dependable. simpl. repeat split; auto using incl_refl. }
  destruct (String.eqb (lower source_lang) (lower target_lang)).
  { unfold dependable. simpl. repeat split; auto using incl_refl. }
  pose proof (ensure_package_spec argos self (lower source_lang) (lower target_lang))
    as H.
  cbv zeta in H.
  destruct (_ensure_translation_package argos self (lower source_lang)
                                        (lower target_lang)) as [ok self'].
  simpl in H. destruct H as (Ha & Hi & _).
  destruct ok; simpl.
  - destruct (argos_translate argos text _ _); unfold dependable; simpl;
      repeat split; auto.
    intros [H | H]; discriminate.
  - destruct (negb (String.eqb (lower source_lang) "en")
              && negb (String.eqb (lower target_lang) "en")).
    + destruct (via_english_dependable argos self' text (lower source_lang)
                                       (lower target_lang)) as (D1 & D2 & D3 & D4 & D5).
      unfold dependable. repeat split; auto; [congruence | eauto using incl_tran].
    + unfold dependable. simpl. repeat split; auto.
Qed.

Lemma via_english_offline (argos : Argos) (self : MotherLineTranslator)
      (text source_lang target_lang : string) :
  auto_download self = false ->
  String.eqb source_lang "en" = false ->
  offline_result text self
                 (_translate_via_english argos self text source_lang target_lang).
Proof.
  intros Hoff Hsrc. unfold _translate_via_english.
  pose proof (leg_spec argos self text source_lang "en" source_lang) as H1.
  cbv zeta in H1.
  destruct (leg argos self text source_lang "en" source_lang) as [[english | e] self1];
    simpl in H1; destruct H1 as (A1 & _ & S1 & R1); specialize (S1 Hoff); subst self1.
  - pose proof (leg_spec argos self english "en" target_lang target_lang) as H2.
    cbv zeta in H2.
    destruct (leg argos self english "en" target_lang target_lang)
      as [[final | e] self2];
      simpl in H2; destruct H2 as (_ & _ & S2 & _); specialize (S2 Hoff); subst self2;
      unfold offline_result; simpl.
    + split; [reflexivity |]. intro Hnil.
      destruct (R1 Hoff Hnil Hsrc) as [e He]. discriminate.
    + split; [reflexivity |]. intros _. repeat split; discriminate.
  - unfold offline_result. simpl. split; [reflexivity |].
    intros _. repeat split; discriminate.
Qed.

(** X26.  With downloads switched off, [translate_text] leaves the
    translator as it is; when no package is installed either, it returns
    every text untranslated, and never with the confidence of a
    translation. *)
Theorem translate_text_offline (argos : Argos) (self : MotherLineTranslator)
        (text source_lang target_lang : string) :
  auto_download self = false ->
  offline_result text self (translate_text argos self text source_lang target_lang).
Proof.
  intro Hoff. unfold translate_text.
  destruct (blank text).
  { unfold offline_result. simpl. repeat split; discriminate. }
  destruct (String.eqb (lower source_lang) (lower target_lang)).
  { unfold offline_result. simpl. repeat split; discriminate. }
  pose proof (ensure_package_spec argos self (lower source_lang) (lower target_lang))
    as H.
  cbv zeta in H.
  destruct (_ensure_translation_package argos self (lower source_lang)
                                        (lower target_lang)) as [ok self'].
  simpl in H. destruct H as (_ & _ & Hs). destruct (Hs Hoff) as [Hself Hok].
  subst self'.
  destruct ok; simpl.
  - destruct (argos_translate argos text _ _); unfold offline_result; simpl;
      (split; [reflexivity |]); intro Hnil;
      unfold installed in Hok; rewrite Hnil in Hok; discriminate.
  - destruct (negb (String.eqb (lower source_lang) "en")) eqn:Esrc; simpl.
    + destruct (negb (String.eqb (lower target_lang) "en")).
      * apply via_english_offline; [exact Hoff | now apply negb_true_iff].
      * unfold offline_result. simpl. repeat split; discriminate.
    + unfold offline_result. simpl. repeat split; discriminate.
Qed.

Lemma translate_text_offline_witness :
  offline_result "Bom dia" offline
                 (translate_text argos_pt_en offline "Bom dia" "PT" "en").
Proof.
  apply translate_text_offline. reflexivity.
Defined.

(** X27.  [translate_segments] returns one result per segment, in order,
    each with the text of its segment (the empty string for a segment
    without text) as [original_text]; the installed packages only grow. *)
Theorem translate_segments_aligned (argos : Argos) (self : MotherLineTranslator)
        (segments : list (option string)) (source_lang target_lang : string) :
  let out := translate_segments argos self segments source_lang target_lang in
  map original_text (fst out) = map text_of segments
  /\ List.length (fst out) = List.length segments
  /\ incl (installed_packages self) (installed_packages (snd out)).
Proof.
  cbv zeta. revert self.
  induction segments as [| segment rest IH]; intro self; simpl.
  - repeat split. apply incl_refl.
  - destruct (translate_text_dependable argos self (text_of segment)
                                        source_lang target_lang)
      as (D1 & _ & _ & _ & D5).
    destruct (translate_text argos self (text_of segment) source_lang target_lang)
      as [result self1].
    specialize (IH self1).
    destruct (translate_segments argos self1 rest source_lang target_lang)
      as [results self2].
    simpl in *. destruct IH as (I1 & I2 & I3).
    rewrite D1, I1, I2. repeat split. eauto using incl_tran.
Qed.

(** X28.  The pipeline cannot tell an unavailable translation from a
    translation: when it replaces the text (no
    [preserve_original_languages]) and the translator is offline with no
    package, a segment in another language than the target keeps its text
    and is labelled with the target language. *)
Theorem unavailable_translation_relabels (argos : Argos)
        (self : MotherLineTranslator) (config : Pipeline.PipelineConfig)
        (detected target : string) (segment : Pipeline.TranscriptionSegment) :
  auto_download self = false ->
  installed_packages self = [] ->
  Pipeline.preserve_original_languages config = false ->
  Pipeline.target_language config = Some target ->
  (if Pipeline.multilingual_detection config
   then Pipeline.language segment else detected) <> target ->
  exists segment',
    Pipeline.translate_segment config (as_pipeline_translator argos self)
                               detected segment = Ok segment'
    /\ Pipeline.text segment' = Pipeline.text segment
    /\ Pipeline.language segment' = target
    /\ Pipeline.translated_text segment' = Pipeline.translated_text segment.
Proof.
  intros Hoff Hnil Hpre Htarget Hother.
  unfold Pipeline.translate_segment. rewrite Htarget, Hpre.
  set (source_lang := if Pipeline.multilingual_detection config
                      then Pipeline.language segment else detected) in *.
  assert (E : Pipeline.option_string_eqb (Some source_lang) (Some target) = false).
  { simpl. now apply String.eqb_neq. }
  rewrite E. simpl.
  destruct (translate_text_offline argos self (Pipeline.text segment) source_lang
                                   target Hoff) as [_ Hsame].
  destruct (Hsame Hnil) as [Hsame' _]. rewrite Hsame'.
  eexists. split; [reflexivity |]. simpl. repeat split.
Qed.

Lemma unavailable_translation_relabels_witness :
  exists segment',
    Pipeline.translate_segment
      (Pipeline.mkConfig "fast" "auto" (Some "en"%string) ["srt"%string] false false
                         false false false "silero" "auto" None None)
      (as_pipeline_translator argos_pt_en offline) "pt"
      (Pipeline.mkSegment 1 0 2 "Bom dia" 0 "pt" 1 None) = Ok segment'
    /\ Pipeline.text segment' = "Bom dia"%string
    /\ Pipeline.language segment' = "en"%string
    /\ Pipeline.translated_text segment' = None.
Proof.
  apply (unavailable_translation_relabels argos_pt_en offline
           (Pipeline.mkConfig "fast" "auto" (Some "en"%string) ["srt"%string]
                              false false false false false "silero" "auto"
                              None None)
           "pt" "en" (Pipeline.mkSegment 1 0 2 "Bom dia" 0 "pt" 1 None));
    try reflexivity.
  discriminate.
Defined.

End TranslatorProofs.
